(** * chatbot.py: a REST wrapper around a text-completion provider

    Shallow embedding of [chatbot.py] (request validation, prompt
    templating, the conversation service, the HTTP handler, the Python
    chat client and its interactive loop) and the properties of its
    specification.

    Modelling conventions.
    - Python [str] is [string]; a character is read as a code point in
      U+0000..U+00FF.  [str.strip] and [str.lower] are modelled exactly on
      that range.
    - Python dicts with string keys are [gmap string _].
    - The completion provider and the HTTP transport of the client are
      external: they are oracles, functions of the history of calls made
      so far, and every call is recorded in an explicit log.
    - A Python exception is a value of [exn]; code that may raise returns
      a [result]. *)

From Stdlib Require Import String Ascii List Arith NArith Lia Bool DecimalString.
From stdpp Require Import base option gmap strings.

Local Open Scope stdpp_scope.

(** ** Python text primitives *)

Module Text.

(** The line feed, written [\n] in the source. *)
Definition nl : string := String (ascii_of_nat 10) "".

(** [s.startswith(p)]. *)
Fixpoint startswith (p s : string) : bool :=
  match p, s with
  | "", _ => true
  | String _ _, "" => false
  | String a p', String b s' => if Ascii.eqb a b then startswith p' s' else false
  end.

(** Number of start positions [i] with [s[i:].startswith(p)]. *)
Fixpoint occurrences (p s : string) : nat :=
  (if startswith p s then 1 else 0) +
  match s with
  | "" => 0
  | String _ s' => occurrences p s'
  end.

(** [p in s]. *)
Definition contains (p s : string) : bool := negb (occurrences p s =? 0).

(** [s[n:]]. *)
Fixpoint drop (n : nat) (s : string) : string :=
  match n, s with
  | 0, _ => s
  | S _, "" => ""
  | S n', String _ s' => drop n' s'
  end.

(** [c.isspace()] for a code point below U+0100: the ASCII controls
    TAB, LF, VT, FF, CR, the separators FS, GS, RS, US, the space,
    NEL (U+0085) and the no-break space (U+00A0). *)
Definition isspace (c : ascii) : bool :=
  let n := nat_of_ascii c in
  ((9 <=? n) && (n <=? 13)) || ((28 <=? n) && (n <=? 32))
  || (n =? 133) || (n =? 160).

(** [s.lstrip()]. *)
Fixpoint lstrip (s : string) : string :=
  match s with
  | "" => ""
  | String a s' => if isspace a then lstrip s' else s
  end.

(** [s.rstrip()]. *)
Fixpoint rstrip (s : string) : string :=
  match s with
  | "" => ""
  | String a s' =>
      match rstrip s' with
      | "" => if isspace a then "" else String a ""
      | r => String a r
      end
  end.

(** [s.strip()]. *)
Definition strip (s : string) : string := rstrip (lstrip s).

(** [c.lower()] for a code point below U+0100: A-Z and the Latin-1
    capitals U+00C0..U+00DE (the multiplication sign U+00D7 apart) move
    up by 32. *)
Definition lower_char (c : ascii) : ascii :=
  let n := nat_of_ascii c in
  if ((65 <=? n) && (n <=? 90))
     || ((192 <=? n) && (n <=? 222) && negb (n =? 215))
  then ascii_of_nat (n + 32) else c.

(** [s.lower()]. *)
Fixpoint lower (s : string) : string :=
  match s with
  | "" => ""
  | String a s' => String (lower_char a) (lower s')
  end.

(** Python truthiness of a [str]: [bool(s)]. *)
Definition truthy (s : string) : bool :=
  match s with "" => false | _ => true end.

(** Last character of a text, if any. *)
Fixpoint last_char (s : string) : option ascii :=
  match s with
  | "" => None
  | String a "" => Some a
  | String _ s' => last_char s'
  end.

(** First character of a text, if any. *)
Definition first_char (s : string) : option ascii :=
  match s with "" => None | String a _ => Some a end.

(** [c in s] for a single character [c]. *)
Fixpoint has_char (c : ascii) (s : string) : bool :=
  match s with
  | "" => false
  | String a s' => Ascii.eqb c a || has_char c s'
  end.

(** Whether a text begins or ends with a whitespace character. *)
Definition edge_space (s : string) : bool :=
  match first_char s with Some a => isspace a | None => false end
  || match last_char s with Some b => isspace b | None => false end.

(** Whether every character of a text is whitespace (the empty text
    included). *)
Fixpoint blank (s : string) : bool :=
  match s with
  | "" => true
  | String a s' => isspace a && blank s'
  end.

(** [str(n)] for a natural number. *)
Definition str_nat (n : nat) : string := NilZero.string_of_uint (Nat.to_uint n).

End Text.

(** ** Exceptions and results *)

Inductive exn : Type :=
| ValueError (msg : string)
| KeyError (key : string)
| TypeError (msg : string)
| EOFError
| KeyboardInterrupt                      (* a [BaseException], not an [Exception] *)
| ProviderError (msg : string)           (* any [Exception] of the provider *)
| HTTPException (status_code : nat) (detail : string)
| RequestException (msg : string).       (* [requests.exceptions.RequestException] *)

(** [str(e)]. *)
Definition str_exn (e : exn) : string :=
  match e with
  | ValueError m => m
  | KeyError k => "'" +:+ k +:+ "'"
  | TypeError m => m
  | EOFError => ""
  | KeyboardInterrupt => ""
  | ProviderError m => m
  | HTTPException c d => Text.str_nat c +:+ ": " +:+ d
  | RequestException m => m
  end.

Inductive result (A : Type) : Type :=
| Ok (a : A)
| Raise (e : exn).
Arguments Ok {A} a.
Arguments Raise {A} e.

(** ** The prompt template ([ChatPromptTemplate.from_template], f-string format) *)

Module Template.

Inductive piece : Type :=
| Lit (text : string)
| Var (name : string).

(** Scanner state: inside literal text, or inside the braces of a
    replacement field. *)
Inductive mode : Type :=
| InLit (acc : string)
| InVar (acc : string).

Definition snoc (s : string) (c : ascii) : string := s +:+ String c "".

Definition flush (acc : string) (out : list piece) : list piece :=
  match acc with "" => out | _ => out ++ [Lit acc] end.

(** Parsing of an f-string template: [{name}] is a replacement field,
    [{{] and [}}] are literal braces, a lone [}] or an unclosed [{] is
    an error.  Conversions and format specifications, which the
    template of this program does not use, are not modelled. *)
Fixpoint parse_go (s : string) (m : mode) (out : list piece) : result (list piece) :=
  match m with
  | InLit acc =>
      match s with
      | "" => Ok (flush acc out)
      | String "{" (String "{" s') => parse_go s' (InLit (snoc acc "{")) out
      | String "{" s' => parse_go s' (InVar "") (flush acc out)
      | String "}" (String "}" s') => parse_go s' (InLit (snoc acc "}")) out
      | String "}" _ => Raise (ValueError "Single '}' encountered in format string")
      | String c s' => parse_go s' (InLit (snoc acc c)) out
      end
  | InVar acc =>
      match s with
      | "" => Raise (ValueError "expected '}' before end of string")
      | String "}" s' => parse_go s' (InLit "") (out ++ [Var acc])
      | String c s' => parse_go s' (InVar (snoc acc c)) out
      end
  end.

Definition from_template (src : string) : result (list piece) :=
  parse_go src (InLit "") [].

(** Substitution of the replacement fields by the values of a dict. *)
Fixpoint format (t : list piece) (kwargs : gmap string string) : result string :=
  match t with
  | [] => Ok ""
  | Lit text :: t' =>
      match format t' kwargs with
      | Ok rest => Ok (text +:+ rest)
      | Raise e => Raise e
      end
  | Var name :: t' =>
      match kwargs !! name with
      | None => Raise (KeyError name)
      | Some v =>
          match format t' kwargs with
          | Ok rest => Ok (v +:+ rest)
          | Raise e => Raise e
          end
      end
  end.

End Template.

(** ** State and exceptions: the monad the effectful code runs in *)

Definition M (St A : Type) : Type := St -> result A * St.

Definition ret {St A} (a : A) : M St A := fun st => (Ok a, st).

Definition raise {St A} (e : exn) : M St A := fun st => (Raise e, st).

Definition bind {St A B} (m : M St A) (k : A -> M St B) : M St B :=
  fun st =>
    match m st with
    | (Ok a, st') => k a st'
    | (Raise e, st') => (Raise e, st')
    end.

(** [try: body / except <class> as e: handler e], where [catches] tells
    whether an exception belongs to the class. *)
Definition try_except {St A} (body : M St A) (catches : exn -> bool)
    (handler : exn -> M St A) : M St A :=
  fun st =>
    match body st with
    | (Ok a, st') => (Ok a, st')
    | (Raise e, st') => if catches e then handler e st' else (Raise e, st')
    end.

Definition lift {St A} (r : result A) : M St A := fun st => (r, st).

Notation "'let*' x ':=' m 'in' k" := (bind m (fun x => k))
  (at level 10, x name, m at level 100, k at level 200).

(** ** The conversation service ([GeminiChatService]) *)

(** Configuration of the provider client; the temperature 0.7 is kept
    as the fraction 7/10. *)
Record ChatGoogleGenerativeAI : Type := {
  model : string;
  google_api_key : string;
  temperature : nat * nat
}.

(** What one completion call does: return the text of the model's
    message, or raise an [Exception] whose [str] is [msg]. *)
Inductive completion : Type :=
| Completed (text : string)
| Failed (msg : string).

(** The external provider: its answer may depend on the configuration,
    on the prompts it has been sent so far and on the prompt. *)
Definition provider : Type :=
  ChatGoogleGenerativeAI -> list string -> string -> completion.

Record GeminiChatService : Type := {
  llm : ChatGoogleGenerativeAI;
  template : list Template.piece
}.

Definition template_source : string :=
  "You are a helpful AI assistant. "
  +:+ "{background_context}"
  +:+ Text.nl +:+ Text.nl +:+ "User inquiry: {user_message}".

(** [os.getenv(name)] on the process environment. *)
Definition getenv (environ : gmap string string) (name : string) : option string :=
  environ !! name.

(** Python [not x] for an optional text: [None] and [""] are falsy. *)
Definition falsy (x : option string) : bool :=
  match x with
  | None => true
  | Some s => negb (Text.truthy s)
  end.

(** [x or ""]. *)
Definition or_empty (x : option string) : string :=
  match x with
  | None => ""
  | Some s => if Text.truthy s then s else ""
  end.

(** [GeminiChatService.__init__]. *)
Definition GeminiChatService_init (environ : gmap string string)
    : result GeminiChatService :=
  let api_key := getenv environ "GOOGLE_API_KEY" in
  if falsy api_key then
    Raise (ValueError "GOOGLE_API_KEY environment variable is required")
  else
    match Template.from_template template_source with
    | Raise e => Raise e
    | Ok t =>
        Ok {| llm := {| model := "gemini-2.5-flash";
                        google_api_key := or_empty api_key;
                        temperature := (7, 10) |};
              template := t |}
    end.

(** The payload dict built by [generate_response]. *)
Definition payload (user_msg context : string) : gmap string string :=
  {[ "background_context" :=
       (if Text.truthy context then "Context: " +:+ context else "");
     "user_message" := user_msg ]}.

(** [self.processing_chain.invoke(payload)]: format the template, send
    the prompt to the provider (one call, appended to the log), return
    the text of its message. *)
Definition processing_chain_invoke (self : GeminiChatService) (p : provider)
    (kwargs : gmap string string) : M (list string) string :=
  let* prompt := lift (Template.format (template self) kwargs) in
  fun log =>
    match p (llm self) log prompt with
    | Completed text => (Ok text, log ++ [prompt])
    | Failed msg => (Raise (ProviderError msg), log ++ [prompt])
    end.

(** The prompt the service renders for a context and a message: the
    template formatted with the payload of [generate_response]. *)
Definition render (self : GeminiChatService) (context user_msg : string)
    : result string :=
  Template.format (template self) (payload user_msg context).

(** Membership in the class [Exception]. *)
Definition is_Exception (e : exn) : bool :=
  match e with KeyboardInterrupt => false | _ => true end.

(** [GeminiChatService.generate_response]. *)
Definition generate_response (self : GeminiChatService) (p : provider)
    (user_msg context : string) : M (list string) string :=
  try_except
    (let* result := processing_chain_invoke self p (payload user_msg context) in
     ret result)
    is_Exception
    (fun e => raise (HTTPException 500 ("AI processing failed: " +:+ str_exn e))).

(** ** The HTTP layer *)

(** A JSON request body of the declared shape: each field, when present,
    holds a value of its declared type ([message : str],
    [background_info : Union[str, None]]).  Bodies of any other shape
    are dealt with by [validate_body] below. *)
Record RequestBody : Type := {
  body_message : option string;                   (* [None]: key absent *)
  body_background_info : option (option string)   (* [Some None]: null *)
}.

(** [MessageRequest]. *)
Record MessageRequest : Type := {
  message : string;
  background_info : option string
}.

(** [MessageResponse]. *)
Record MessageResponse : Type := {
  reply : string
}.

Inductive validation_error : Type :=
| Missing (field : string)
| StringTooShort (field : string) (min_length : nat)
| StringType (field : string)     (* the value is not a string *)
| ModelType                       (* the body is not a JSON object *)
| JsonInvalid.                    (* the body is no JSON document *)

(** Validation of a body of the declared shape against
    [MessageRequest]: [message] is required with [min_length=1];
    [background_info] defaults to [None].  The type errors of the other
    bodies are those of [validate_body], which agrees with this
    validation on the bodies of the declared shape. *)
Definition validate (b : RequestBody) : MessageRequest + list validation_error :=
  match body_message b with
  | None => inr [Missing "message"]
  | Some m =>
      if String.length m <? 1 then inr [StringTooShort "message" 1]
      else inl {| message := m;
                  background_info :=
                    match body_background_info b with
                    | None => None
                    | Some v => v
                    end |}
  end.

Inductive content : Type :=
| ReplyJson (r : MessageResponse)                  (* [{"reply": ...}] *)
| DetailJson (detail : string)                     (* [{"detail": ...}] *)
| ValidationJson (errors : list validation_error)  (* [{"detail": [...]}] *)
| InternalServerError.

Record http_response : Type := {
  status : nat;
  body : content
}.

Record FastAPI : Type := {
  title : string;
  description : string;
  version : string;
  chat_service : GeminiChatService
}.

(** [create_app]. *)
Definition create_app (environ : gmap string string) : result FastAPI :=
  match GeminiChatService_init environ with
  | Raise e => Raise e
  | Ok svc =>
      Ok {| title := "AI Chat Service";
            description := "RESTful API for conversational AI using Google Gemini";
            version := "1.0.0";
            chat_service := svc |}
  end.

(** [handle_conversation], the endpoint function. *)
Definition handle_conversation (application : FastAPI) (p : provider)
    (req : MessageRequest) : M (list string) MessageResponse :=
  let* response_text :=
    generate_response (chat_service application) p
      (message req) (or_empty (background_info req)) in
  ret {| reply := response_text |}.


(** POST [/conversation] as the framework serves it, on a body of the
    declared shape ([post_request] is the same on any body): a body that
    fails validation is answered 422 without calling the endpoint
    function; an [HTTPException] becomes its status and detail; any
    other exception is a plain 500. *)
Definition post_conversation (application : FastAPI) (p : provider)
    (b : RequestBody) : list string -> http_response * list string :=
  fun log =>
    match validate b with
    | inr errors => ({| status := 422; body := ValidationJson errors |}, log)
    | inl req =>
        match handle_conversation application p req log with
        | (Ok r, log') => ({| status := 200; body := ReplyJson r |}, log')
        | (Raise (HTTPException code detail), log') =>
            ({| status := code; body := DetailJson detail |}, log')
        | (Raise _, log') => ({| status := 500; body := InternalServerError |}, log')
        end
    end.

(** The module-level [app = create_app()]: the environment is the
    process environment once [load_dotenv] has run. *)
Definition app (environ : gmap string string) : result FastAPI :=
  create_app environ.

(** Serving POST [/conversation] from a process started in [environ]:
    the module must import before any request is dispatched. *)
Definition serve_conversation (environ : gmap string string) (p : provider)
    (b : RequestBody) (log : list string)
    : result (http_response * list string) :=
  match app environ with
  | Raise e => Raise e
  | Ok application => Ok (post_conversation application p b log)
  end.

(** ** The Python client ([ChatClient]) *)

(** A decoded JSON document; an object keeps its members in order. *)
#[warnings="-register-all"]
Inductive json : Type :=
| JNull
| JBool (b : bool)
| JNum (n : Z)
| JStr (s : string)
| JArr (items : list json)
| JObj (members : list (string * json)).

(** The request the client puts on the wire. *)
Record Request : Type := {
  url : string;
  json_payload : gmap string string
}.

(** What [response.json()] raises on a body that is not JSON, with its
    message: the [JSONDecodeError] of [requests] (a [RequestException],
    since requests 2.27) or, before, that of the [json] module (a
    [ValueError]). *)
Inductive decode_failure : Type :=
| InvalidJSON (msg : string)
| InvalidJSONLegacy (msg : string).

(** An HTTP response as [requests] hands it over; [text] is the decoded
    body, or the decoding failure when the body is not JSON (so for the
    statuses 204, 304 and 1xx, whose body never reaches the client). *)
Record Response : Type := {
  status_code : nat;
  reason : string;
  response_url : string;
  text : json + decode_failure
}.

(** What [session.post] does: hand over a response, or raise a
    [RequestException] (connection refused, timeout, ...). *)
Inductive post_result : Type :=
| Responded (r : Response)
| Unsent (msg : string).

(** The network: its behaviour may depend on the requests sent so far. *)
Definition transport : Type := list Request -> Request -> post_result.

(** What the client writes on the terminal. *)
Inductive output : Type :=
| Banner
| Help
| PromptYou
| Goodbye
| GoodbyeInterrupted
| ContextCleared
| AIPrefix
| Printed (v : json)
| BlankLine.

(** The client's view of the world: requests sent, lines printed. *)
Record console : Type := {
  requests : list Request;
  stdout : list output
}.

Record ChatClient : Type := {
  base_url : string
}.

(** [ChatClient.__init__]. *)
Definition ChatClient_init (base : option string) : ChatClient :=
  {| base_url := default "http://127.0.0.1:8000" base |}.

Definition print (o : output) : M console unit :=
  fun st => (Ok tt, {| requests := requests st; stdout := stdout st ++ [o] |}).

(** [self.session.post(url, json=payload)]. *)
Definition session_post (net : transport) (u : string)
    (data : gmap string string) : M console Response :=
  fun st =>
    let rq := {| url := u; json_payload := data |} in
    let st' := {| requests := requests st ++ [rq]; stdout := stdout st |} in
    match net (requests st) rq with
    | Responded r => (Ok r, st')
    | Unsent msg => (Raise (RequestException msg), st')
    end.

(** [response.raise_for_status()]: an [HTTPError] (a [RequestException])
    for the statuses 400-599, nothing otherwise. *)
Definition raise_for_status (r : Response) : result unit :=
  let c := status_code r in
  if (400 <=? c) && (c <? 500) then
    Raise (RequestException
             (Text.str_nat c +:+ " Client Error: " +:+ reason r
              +:+ " for url: " +:+ response_url r))
  else if (500 <=? c) && (c <? 600) then
    Raise (RequestException
             (Text.str_nat c +:+ " Server Error: " +:+ reason r
              +:+ " for url: " +:+ response_url r))
  else Ok tt.

(** [response.json()]. *)
Definition response_json (r : Response) : result json :=
  match text r with
  | inl v => Ok v
  | inr (InvalidJSON msg) => Raise (RequestException msg)
  | inr (InvalidJSONLegacy msg) => Raise (ValueError msg)
  end.

(** Lookup in a decoded object: the last member with the key wins. *)
Fixpoint member (key : string) (ms : list (string * json)) : option json :=
  match ms with
  | [] => None
  | (k, v) :: ms' =>
      match member key ms' with
      | Some w => Some w
      | None => if String.eqb k key then Some v else None
      end
  end.

(** [v[key]] for a string key. *)
Definition subscript (v : json) (key : string) : result json :=
  match v with
  | JObj ms =>
      match member key ms with
      | Some w => Ok w
      | None => Raise (KeyError key)
      end
  | JArr _ => Raise (TypeError "list indices must be integers or slices, not str")
  | JStr _ => Raise (TypeError "string indices must be integers, not 'str'")
  | JNum _ => Raise (TypeError "'int' object is not subscriptable")
  | JBool _ => Raise (TypeError "'bool' object is not subscriptable")
  | JNull => Raise (TypeError "'NoneType' object is not subscriptable")
  end.

Definition is_RequestException (e : exn) : bool :=
  match e with RequestException _ => true | _ => false end.

Definition is_KeyboardInterrupt (e : exn) : bool :=
  match e with KeyboardInterrupt => true | _ => false end.

(** The JSON body [send_message] builds: [message], and
    [background_info] when the context is truthy. *)
Definition request_payload (msg : string) (context : option string)
    : gmap string string :=
  let data : gmap string string := {[ "message" := msg ]} in
  if negb (falsy context) then <[ "background_info" := or_empty context ]> data
  else data.

(** [ChatClient.send_message]. *)
Definition send_message (self : ChatClient) (net : transport)
    (msg : string) (context : option string) : M console json :=
  let u := base_url self +:+ "/conversation" in
  let data := request_payload msg context in
  try_except
    (let* response := session_post net u data in
     let* _ := lift (raise_for_status response) in
     let* decoded := lift (response_json response) in
     lift (subscript decoded "reply"))
    is_RequestException
    (fun e => ret (JStr ("Error: " +:+ str_exn e))).

(** What one call of [input] yields. *)
Inductive input_event : Type :=
| Line (raw : string)
| Interrupt
| EndOfFile.

(** [input("You: ")]. *)
Definition input (ev : input_event) : M console string :=
  let* _ := print PromptYou in
  match ev with
  | Line raw => ret raw
  | Interrupt => raise KeyboardInterrupt
  | EndOfFile => raise EOFError
  end.

(** How one turn of the [while True] loop ends. *)
Inductive control : Type :=
| Break
| Continue (context : string).

(** One turn of the loop of [interactive_chat], with the held context. *)
Definition interactive_step (self : ChatClient) (net : transport)
    (ev : input_event) (context : string) : M console control :=
  try_except
    (let* raw := input ev in
     let user_input := Text.strip raw in
     if bool_decide (Text.lower user_input ∈ ["quit"; "exit"; "q"]) then
       let* _ := print Goodbye in
       ret Break
     else if String.eqb (Text.lower user_input) "clear" then
       let* _ := print ContextCleared in
       ret (Continue "")
     else if negb (Text.truthy user_input) then
       ret (Continue context)
     else
       let* _ := print AIPrefix in
       let* response := send_message self net user_input (Some context) in
       let* _ := print (Printed response) in
       let* _ := print BlankLine in
       ret (Continue context))
    is_KeyboardInterrupt
    (fun _ =>
       let* _ := print GoodbyeInterrupted in
       ret Break).

(** How a run of the loop over finitely many input events ends. *)
Inductive ending : Type :=
| Finished
| AwaitingInput (context : string).

Fixpoint chat_loop (self : ChatClient) (net : transport)
    (events : list input_event) (context : string) : M console ending :=
  match events with
  | [] => ret (AwaitingInput context)
  | ev :: rest =>
      let* c := interactive_step self net ev context in
      match c with
      | Break => ret Finished
      | Continue context' => chat_loop self net rest context'
      end
  end.

(** [ChatClient.interactive_chat]. *)
Definition interactive_chat (self : ChatClient) (net : transport)
    (events : list input_event) : M console ending :=
  let* _ := print Banner in
  let* _ := print Help in
  chat_loop self net events "".

(** ** The request body as it arrives *)

(** The body of a POST is [None] when it is no JSON document, and the
    decoded document otherwise; an object is looked up as Python's
    [json.loads] leaves it (the last member with a key wins). *)

(** [message: str = Field(..., min_length=1)] on a member of the body: a
    [str] field takes a JSON string only (pydantic 2 turns no other
    value into a string). *)
Definition check_message (v : option json) : string + validation_error :=
  match v with
  | None => inr (Missing "message")
  | Some (JStr m) =>
      if String.length m <? 1 then inr (StringTooShort "message" 1) else inl m
  | Some _ => inr (StringType "message")
  end.

(** [background_info: Union[str, None] = Field(None, ...)]. *)
Definition check_background_info (v : option json)
    : option string + validation_error :=
  match v with
  | None => inl None
  | Some JNull => inl None
  | Some (JStr c) => inl (Some c)
  | Some _ => inr (StringType "background_info")
  end.

(** Validation of the body as it arrives against [MessageRequest], with
    the errors of all fields. *)
Definition validate_body (raw : option json)
    : MessageRequest + list validation_error :=
  match raw with
  | None => inr [JsonInvalid]
  | Some (JObj members) =>
      match check_message (member "message" members),
            check_background_info (member "background_info" members) with
      | inl m, inl c => inl {| message := m; background_info := c |}
      | inr e, inl _ => inr [e]
      | inl _, inr e => inr [e]
      | inr e1, inr e2 => inr [e1; e2]
      end
  | Some _ => inr [ModelType]
  end.

(** POST [/conversation] on the body as it arrives: as
    [post_conversation], with the validation of [validate_body]. *)
Definition post_request (application : FastAPI) (p : provider)
    (raw : option json) : list string -> http_response * list string :=
  fun log =>
    match validate_body raw with
    | inr errors => ({| status := 422; body := ValidationJson errors |}, log)
    | inl req =>
        match handle_conversation application p req log with
        | (Ok r, log') => ({| status := 200; body := ReplyJson r |}, log')
        | (Raise (HTTPException code detail), log') =>
            ({| status := code; body := DetailJson detail |}, log')
        | (Raise _, log') => ({| status := 500; body := InternalServerError |}, log')
        end
    end.

(** The context the endpoint function passes downstream for the members
    of a JSON object. *)
Definition members_context (members : list (string * json)) : string :=
  match check_background_info (member "background_info" members) with
  | inl c => or_empty c
  | inr _ => ""
  end.

(** The JSON object of a body of the declared shape. *)
Definition body_json (b : RequestBody) : json :=
  JObj (match body_message b with
        | Some m => [("message", JStr m)]
        | None => []
        end ++
        match body_background_info b with
        | Some (Some c) => [("background_info", JStr c)]
        | Some None => [("background_info", JNull)]
        | None => []
        end).

(** Whether [http.client] cuts the body of a response off: it does for
    the statuses 204, 304 and 1xx, whatever the server sent. *)
Definition bodiless (c : nat) : bool :=
  (c =? 204) || (c =? 304) || ((100 <=? c) && (c <? 200)).

(** The stripped lines a run of the loop sends as messages, read off
    the input events: those that are neither a keyword nor blank, up to
    the first quit word, interrupt or end of the input. *)
Fixpoint typed_lines (events : list input_event) : list string :=
  match events with
  | [] => []
  | Line raw :: rest =>
      let user_input := Text.strip raw in
      if bool_decide (Text.lower user_input ∈ ["quit"; "exit"; "q"]) then []
      else if String.eqb (Text.lower user_input) "clear" then typed_lines rest
      else if negb (Text.truthy user_input) then typed_lines rest
      else user_input :: typed_lines rest
  | Interrupt :: _ => []
  | EndOfFile :: _ => []
  end.

(** The request of interactive mode for a stripped line: the message
    alone. *)
Definition bare_request (self : ChatClient) (m : string) : Request :=
  {| url := base_url self +:+ "/conversation";
     json_payload := {[ "message" := m ]} |}.

(** The prompt of a message without context. *)
Definition bare_prompt (m : string) : string :=
  "You are a helpful AI assistant. "
  +:+ Text.nl +:+ Text.nl +:+ "User inquiry: " +:+ m.

(** ** The prompts one request sends *)

(** The prompts POST [/conversation] hands to the provider for a body:
    none for a body that fails validation, the rendered prompt
    otherwise. *)
Definition prompts_of (application : FastAPI) (b : RequestBody) : list string :=
  match validate b with
  | inr _ => []
  | inl req =>
      match render (chat_service application)
              (or_empty (background_info req)) (message req) with
      | Ok prompt => [prompt]
      | Raise _ => []
      end
  end.

(** ** The application behind the client's transport *)

(** What the HTTP stack between [ChatClient] and the application fixes
    and the program does not: the reason phrase of a status line, the
    JSON detail of a validation error, and how the client fails to
    decode the plain-text body of an unhandled error. *)
Record http_stack : Type := {
  reason_phrase : nat -> string;
  validation_detail : list validation_error -> json;
  plain_text : decode_failure
}.

(** The body the application reads from the JSON object the client
    sent. *)
Definition received_body (data : gmap string string) : RequestBody :=
  {| body_message := data !! "message";
     body_background_info := Some <$> (data !! "background_info") |}.

(** The body of a response as the client decodes it. *)
Definition content_json (stack : http_stack) (c : content) : json + decode_failure :=
  match c with
  | ReplyJson r => inl (JObj [("reply", JStr (reply r))])
  | DetailJson detail => inl (JObj [("detail", JStr detail)])
  | ValidationJson errors => inl (JObj [("detail", validation_detail stack errors)])
  | InternalServerError => inr (plain_text stack)
  end.

(** A response of the application as [requests] hands it over. *)
Definition delivered (stack : http_stack) (u : string) (r : http_response)
    : Response :=
  {| status_code := status r;
     reason := reason_phrase stack (status r);
     response_url := u;
     text := content_json stack (body r) |}.

(** The provider log of the application once it has served, in order,
    the requests of a history that were sent to its endpoint. *)
Fixpoint served (application : FastAPI) (p : provider) (endpoint : string)
    (history : list Request) (log : list string) : list string :=
  match history with
  | [] => log
  | rq :: rest =>
      served application p endpoint rest
        (if String.eqb (url rq) endpoint
         then snd (post_conversation application p
                     (received_body (json_payload rq)) log)
         else log)
  end.

(** The transport of a client whose requests to [origin + "/conversation"]
    reach the application, started with the provider log [log0]; any
    other URL is left to [elsewhere]. *)
Definition service (stack : http_stack) (application : FastAPI) (p : provider)
    (origin : string) (log0 : list string) (elsewhere : transport) : transport :=
  fun history rq =>
    let endpoint := origin +:+ "/conversation" in
    if String.eqb (url rq) endpoint then
      Responded
        (delivered stack (url rq)
           (fst (post_conversation application p
                   (received_body (json_payload rq))
                   (served application p endpoint history log0))))
    else elsewhere history rq.

(** ** What the interactive loop sends, read off the typed lines *)

(** The requests of a run of the loop as a function of the input events
    alone: nothing for a quit word and after it, nothing for ["clear"]
    (which empties the context) or a blank line, the stripped line with
    the held context otherwise; an interrupt or the end of the input
    ends the run. *)
Fixpoint script (self : ChatClient) (events : list input_event)
    (context : string) : list Request :=
  match events with
  | [] => []
  | Line raw :: rest =>
      let user_input := Text.strip raw in
      if bool_decide (Text.lower user_input ∈ ["quit"; "exit"; "q"]) then []
      else if String.eqb (Text.lower user_input) "clear" then script self rest ""
      else if negb (Text.truthy user_input) then script self rest context
      else {| url := base_url self +:+ "/conversation";
              json_payload := request_payload user_input (Some context) |}
           :: script self rest context
  | Interrupt :: _ => []
  | EndOfFile :: _ => []
  end.

(** Whether a text holds a line feed. *)
Definition has_line_feed (s : string) : bool :=
  Text.has_char (ascii_of_nat 10) s.

(** ** Sample environments, providers and networks *)

Definition sample_environ : gmap string string :=
  {[ "GOOGLE_API_KEY" := "sample-key" ]}.

Definition sample_service : GeminiChatService :=
  {| llm := {| model := "gemini-2.5-flash";
               google_api_key := "sample-key";
               temperature := (7, 10) |};
     template :=
       [Template.Lit "You are a helpful AI assistant. ";
        Template.Var "background_context";
        Template.Lit (Text.nl +:+ Text.nl +:+ "User inquiry: ");
        Template.Var "user_message"] |}.

Definition sample_app : FastAPI :=
  {| title := "AI Chat Service";
     description := "RESTful API for conversational AI using Google Gemini";
     version := "1.0.0";
     chat_service := sample_service |}.

(** A provider stub that answers every prompt with one text. *)
Definition stub (r : string) : provider := fun _ _ _ => Completed r.

(** A provider whose every call raises with one message. *)
Definition broken (msg : string) : provider := fun _ _ _ => Failed msg.

(** A server that answers every request with one status and body; the
    client sees no body for the statuses that [http.client] cuts off. *)
Definition answering (code : nat) (phrase : string) (v : json) : transport :=
  fun _ rq =>
    Responded {| status_code := code; reason := phrase;
                 response_url := url rq;
                 text :=
                   if bodiless code
                   then inr (InvalidJSON "Expecting value: line 1 column 1 (char 0)")
                   else inl v |}.

(** A server that cannot be reached. *)
Definition unreachable : transport :=
  fun _ _ => Unsent "Connection refused".

Definition sample_client : ChatClient := ChatClient_init None.

Definition fresh_console : console := {| requests := []; stdout := [] |}.

(** Reason phrases and bodies as a current server and client produce
    them. *)
Definition sample_stack : http_stack :=
  {| reason_phrase :=
       fun c =>
         if c =? 200 then "OK"
         else if c =? 422 then "Unprocessable Entity"
         else if c =? 500 then "Internal Server Error"
         else "";
     validation_detail := fun _ => JArr [];
     plain_text := InvalidJSON "Expecting value: line 1 column 1 (char 0)" |}.

(** ** Facts about texts *)

Section TextFacts.

Local Arguments String.append : simpl nomatch.

Lemma str_app_nil_r (s : string) : s +:+ "" = s.
Proof. induction s as [|a s IH]; simpl; [reflexivity | now rewrite IH]. Qed.

Lemma str_app_assoc (s t u : string) : (s +:+ t) +:+ u = s +:+ (t +:+ u).
Proof. induction s as [|a s IH]; simpl; [reflexivity | now rewrite IH]. Qed.

Lemma str_app_cons (a : ascii) (s t : string) : String a s +:+ t = String a (s +:+ t).
Proof. reflexivity. Qed.

Lemma str_app_length (s t : string) :
  String.length (s +:+ t) = String.length s + String.length t.
Proof. induction s as [|a s IH]; simpl; [reflexivity | now rewrite IH]. Qed.

Lemma str_app_inv_head (s t u : string) : s +:+ t = s +:+ u -> t = u.
Proof.
  induction s as [|a s IH]; simpl; intros H; [exact H|].
  injection H as H. now apply IH.
Qed.

(** [startswith] decides the prefix relation. *)
Lemma startswith_spec (p s : string) :
  Text.startswith p s = true <-> exists k, s = p +:+ k.
Proof.
  revert s. induction p as [|a p IH]; intros s; simpl.
  - split; [intros _; now exists s | reflexivity].
  - destruct s as [|b s]; simpl.
    + split; [discriminate | intros [k Hk]; discriminate].
    + destruct (Ascii.eqb_spec a b) as [->|Hab].
      * rewrite IH. split; intros [k Hk]; exists k; congruence.
      * split; [discriminate | intros [k Hk]; congruence].
Qed.

Lemma startswith_app (p k : string) : Text.startswith p (p +:+ k) = true.
Proof. apply startswith_spec. now exists k. Qed.

Lemma startswith_false (p s : string) :
  (forall k, s <> p +:+ k) -> Text.startswith p s = false.
Proof.
  intros H. destruct (Text.startswith p s) eqn:E; [|reflexivity].
  apply startswith_spec in E as [k Hk]. now destruct (H k).
Qed.

(** Two prefixes of one text are comparable. *)
Lemma prefix_total (p1 p2 k1 k2 : string) :
  p1 +:+ k1 = p2 +:+ k2 ->
  (exists d, p2 = p1 +:+ d /\ k1 = d +:+ k2) \/
  (exists d, p1 = p2 +:+ d /\ k2 = d +:+ k1).
Proof.
  revert p2. induction p1 as [|a p1 IH]; intros p2 H; simpl in H.
  - left. exists p2. now split.
  - destruct p2 as [|b p2]; simpl in H.
    + right. exists (String a p1). now split.
    + injection H as -> H. destruct (IH _ H) as [[d [-> ->]]|[d [-> ->]]].
      * left. now exists d.
      * right. now exists d.
Qed.

Lemma has_char_app (c : ascii) (s t : string) :
  Text.has_char c (s +:+ t) = Text.has_char c s || Text.has_char c t.
Proof.
  induction s as [|a s IH]; simpl; [reflexivity|].
  now rewrite IH, orb_assoc.
Qed.

Lemma has_char_head (c : ascii) (s : string) : Text.has_char c (String c s) = true.
Proof. simpl. now rewrite Ascii.eqb_refl. Qed.

(** A text that holds no copy of the first character of [p] adds no
    occurrence of [p] in front of [s]. *)
Lemma occurrences_skip (c : ascii) (p x s : string) :
  Text.has_char c x = false ->
  Text.occurrences (String c p) (x +:+ s) = Text.occurrences (String c p) s.
Proof.
  induction x as [|a x IH]; intros H; [reflexivity|].
  simpl in H. apply orb_false_iff in H as [Hca Hx].
  rewrite str_app_cons.
  change (Text.occurrences (String c p) (String a (x +:+ s)))
    with ((if Text.startswith (String c p) (String a (x +:+ s)) then 1 else 0)
          + Text.occurrences (String c p) (x +:+ s)).
  simpl Text.startswith. rewrite Hca. simpl. now apply IH.
Qed.

Lemma occurrences_here (p k : string) :
  Text.occurrences p (p +:+ k) =
  1 + match p +:+ k with "" => 0 | String _ s' => Text.occurrences p s' end.
Proof.
  destruct (p +:+ k) as [|a s] eqn:E; simpl.
  - destruct p; [reflexivity | discriminate].
  - rewrite <- E, startswith_app. reflexivity.
Qed.

Lemma occurrences_here_cons (a : ascii) (p k : string) :
  Text.occurrences (String a p) (String a p +:+ k) =
  1 + Text.occurrences (String a p) (p +:+ k).
Proof. now rewrite occurrences_here. Qed.

Lemma drop_app_length (x y : string) : Text.drop (String.length x) (x +:+ y) = y.
Proof. induction x as [|a x IH]; simpl; [now destruct y | exact IH]. Qed.

Lemma drop_add (a b : nat) (s : string) :
  Text.drop (a + b) s = Text.drop b (Text.drop a s).
Proof.
  revert s. induction a as [|a IH]; intros s; simpl; [reflexivity|].
  destruct s as [|c s]; [now destruct b | apply IH].
Qed.

Lemma contains_false (p s : string) :
  Text.contains p s = false <-> Text.occurrences p s = 0.
Proof.
  unfold Text.contains. rewrite negb_false_iff. apply Nat.eqb_eq.
Qed.

Lemma contains_prefix (p k : string) : Text.contains p (p +:+ k) = true.
Proof.
  unfold Text.contains. rewrite occurrences_here. reflexivity.
Qed.

(** No occurrence at all means no occurrence at any position. *)
Lemma occurrences_zero (p s : string) :
  Text.occurrences p s = 0 <-> forall x y, s <> x +:+ p +:+ y.
Proof.
  induction s as [|a s IH].
  - simpl. split.
    + intros H x y E. destruct x; [|discriminate]. simpl in E.
      destruct p; [discriminate H | discriminate].
    + intros H. destruct p; [now destruct (H "" "")|reflexivity].
  - change (Text.occurrences p (String a s))
      with ((if Text.startswith p (String a s) then 1 else 0)
            + Text.occurrences p s).
    split.
    + intros H x y E.
      destruct (Text.startswith p (String a s)) eqn:Hs; [discriminate|].
      simpl in H. destruct x as [|b x]; simpl in E.
      * rewrite E, startswith_app in Hs. discriminate.
      * injection E as _ E. rewrite IH in H. exact (H _ _ E).
    + intros H. rewrite startswith_false.
      * simpl. apply IH. intros x y E. apply (H (String a x) y). simpl. now rewrite E.
      * intros k E. exact (H "" k E).
Qed.

End TextFacts.

Section StripFacts.

Lemma lstrip_head (s : string) (a : ascii) (t : string) :
  Text.lstrip s = String a t -> Text.isspace a = false.
Proof.
  induction s as [|b s IH]; simpl; [discriminate|].
  destruct (Text.isspace b) eqn:Hb; [exact IH|].
  now intros [= <- _].
Qed.

Lemma lstrip_fixed (a : ascii) (t : string) :
  Text.isspace a = false -> Text.lstrip (String a t) = String a t.
Proof. intros H. simpl. now rewrite H. Qed.

Lemma lstrip_blank (s : string) : Text.lstrip s = "" <-> Text.blank s = true.
Proof.
  induction s as [|a s IH]; simpl; [easy|].
  destruct (Text.isspace a); simpl; [exact IH | easy].
Qed.

(** [rstrip] keeps the head of a text it does not erase. *)
Lemma rstrip_cons (a : ascii) (s : string) :
  Text.rstrip (String a s) = "" \/
  exists r, Text.rstrip (String a s) = String a r.
Proof.
  simpl. destruct (Text.rstrip s) as [|b r].
  - destruct (Text.isspace a); [now left | right; now exists ""].
  - right. now exists (String b r).
Qed.

Lemma rstrip_last (s : string) (c : ascii) :
  Text.last_char (Text.rstrip s) = Some c -> Text.isspace c = false.
Proof.
  induction s as [|a s IH]; simpl; [discriminate|].
  destruct (Text.rstrip s) as [|b r] eqn:Hr.
  - destruct (Text.isspace a) eqn:Ha; simpl; [discriminate|].
    now intros [= <-].
  - simpl. exact IH.
Qed.

Lemma rstrip_idempotent (s : string) :
  Text.rstrip (Text.rstrip s) = Text.rstrip s.
Proof.
  induction s as [|a s IH]; simpl; [reflexivity|].
  destruct (Text.rstrip s) as [|b r] eqn:Hr.
  - destruct (Text.isspace a) eqn:Ha; simpl; [reflexivity|].
    now rewrite Ha.
  - change (Text.rstrip (String a (String b r)))
      with (match Text.rstrip (String b r) with
            | "" => if Text.isspace a then "" else String a ""
            | r' => String a r'
            end).
    now rewrite IH.
Qed.

(** A stripped text is empty or has a non-space head. *)
Lemma strip_head (s : string) (a : ascii) (t : string) :
  Text.strip s = String a t -> Text.isspace a = false.
Proof.
  unfold Text.strip. destruct (Text.lstrip s) as [|b u] eqn:Hl; [discriminate|].
  destruct (rstrip_cons b u) as [-> | [r ->]]; [discriminate|].
  intros [= <- _]. exact (lstrip_head _ _ _ Hl).
Qed.

Lemma strip_idempotent (s : string) : Text.strip (Text.strip s) = Text.strip s.
Proof.
  destruct (Text.strip s) as [|a t] eqn:Hs; [reflexivity|].
  unfold Text.strip at 1. rewrite (lstrip_fixed _ _ (strip_head _ _ _ Hs)).
  rewrite <- Hs. apply rstrip_idempotent.
Qed.

Lemma strip_blank (s : string) : Text.strip s = "" <-> Text.blank s = true.
Proof.
  rewrite <- lstrip_blank. unfold Text.strip. split.
  - destruct (Text.lstrip s) as [|a t] eqn:Hl; [reflexivity|].
    pose proof (lstrip_head _ _ _ Hl) as Ha. simpl.
    destruct (Text.rstrip t); [now rewrite Ha | discriminate].
  - now intros ->.
Qed.

(** A stripped text neither begins nor ends with whitespace. *)
Lemma strip_edges (s : string) : Text.edge_space (Text.strip s) = false.
Proof.
  unfold Text.edge_space. apply orb_false_iff. split.
  - destruct (Text.strip s) as [|a t] eqn:Hs; [reflexivity|].
    exact (strip_head _ _ _ Hs).
  - unfold Text.strip.
    destruct (Text.last_char (Text.rstrip (Text.lstrip s))) as [c|] eqn:Hc;
      [exact (rstrip_last _ _ Hc) | reflexivity].
Qed.

End StripFacts.

(** ** Facts about the prompt *)

Lemma from_template_source :
  Template.from_template template_source =
  Ok [Template.Lit "You are a helpful AI assistant. ";
      Template.Var "background_context";
      Template.Lit (Text.nl +:+ Text.nl +:+ "User inquiry: ");
      Template.Var "user_message"].
Proof. reflexivity. Qed.

(** Every service that [__init__] builds holds the parsed template. *)
Lemma init_template (environ : gmap string string) (self : GeminiChatService) :
  GeminiChatService_init environ = Ok self ->
  template self =
  [Template.Lit "You are a helpful AI assistant. ";
   Template.Var "background_context";
   Template.Lit (Text.nl +:+ Text.nl +:+ "User inquiry: ");
   Template.Var "user_message"].
Proof.
  unfold GeminiChatService_init. destruct (falsy _); [discriminate|].
  rewrite from_template_source. intros [= <-]. reflexivity.
Qed.

Lemma payload_background_context (user_msg context : string) :
  payload user_msg context !! "background_context" =
  Some (if Text.truthy context then "Context: " +:+ context else "").
Proof. unfold payload. now rewrite lookup_insert_eq. Qed.

Lemma payload_user_message (user_msg context : string) :
  payload user_msg context !! "user_message" = Some user_msg.
Proof.
  unfold payload. rewrite lookup_insert_ne by discriminate.
  now rewrite lookup_singleton_eq.
Qed.

Lemma render_init (environ : gmap string string) (self : GeminiChatService)
    (context user_msg : string) :
  GeminiChatService_init environ = Ok self ->
  render self context user_msg =
  Ok ("You are a helpful AI assistant. "
      +:+ (if Text.truthy context then "Context: " +:+ context else "")
      +:+ Text.nl +:+ Text.nl +:+ "User inquiry: " +:+ user_msg).
Proof.
  intros Hinit. unfold render. rewrite (init_template _ _ Hinit).
  unfold Template.format.
  rewrite payload_background_context, payload_user_message.
  rewrite str_app_nil_r, !str_app_assoc. reflexivity.
Qed.

Section Occurrences.

Variable m : string.
Hypothesis m_clean : Text.occurrences "Context:" m = 0.

Local Abbreviation tail := (Text.nl +:+ Text.nl +:+ "User inquiry: " +:+ m).

(** The separator and the message hold no ["Context:"]. *)
Lemma tail_clean (x y : string) : tail <> x +:+ "Context:" +:+ y.
Proof.
  apply occurrences_zero.
  change (Text.nl +:+ Text.nl +:+ "User inquiry: " +:+ m)
    with ((Text.nl +:+ Text.nl +:+ "User inquiry: ") +:+ m).
  rewrite occurrences_skip by reflexivity. exact m_clean.
Qed.

(** No copy of the context segment starts at the head of a suffix of
    the context: by induction on the length of the suffix. *)
Lemma segment_not_at_suffix (n : nat) :
  forall c' c0 k : string,
    String.length c' < n ->
    c' +:+ tail <> ("Context: " +:+ c0 +:+ c') +:+ k.
Proof.
  induction n as [|n IH]; intros c' c0 k Hlen E; [lia|].
  rewrite !str_app_assoc in E.
  destruct (prefix_total _ _ _ _ E) as [[d [HA Hd]]|[d [Hc Hd]]].
  - destruct d as [|a d].
    + apply (tail_clean c0 (" " +:+ k)).
      rewrite str_app_nil_r in HA. subst c'. exact Hd.
    + assert (Ha : a = ascii_of_nat 10) by now injection Hd.
      assert (Hin : Text.has_char a "Context: " = true).
      { rewrite HA, has_char_app, has_char_head. apply orb_true_r. }
      rewrite Ha in Hin. discriminate Hin.
  - destruct (prefix_total _ _ _ _ Hd) as [[d2 [Hd2 Hk]]|[d2 [Hc0 Hk]]].
    + apply (IH d2 c0 k).
      * rewrite Hc, Hd2, !str_app_length in Hlen. simpl in Hlen. lia.
      * rewrite <- Hk, Hc, Hd2, !str_app_assoc. reflexivity.
    + apply (tail_clean d2 (" " +:+ d +:+ k)).
      rewrite Hk, Hc, !str_app_assoc. reflexivity.
Qed.

(** The context followed by the separator and the message holds no
    copy of the context segment. *)
Lemma segment_not_inside (c : string) :
  Text.occurrences ("Context: " +:+ c) (c +:+ tail) = 0.
Proof.
  apply occurrences_zero. intros x y E.
  destruct (prefix_total _ _ _ _ E) as [[d [Hx Hd]]|[d [Hc Hd]]].
  - apply (tail_clean d (" " +:+ c +:+ y)).
    rewrite Hd, !str_app_assoc. reflexivity.
  - apply (segment_not_at_suffix (S (String.length d)) d x y); [lia|].
    rewrite <- Hd, Hc. reflexivity.
Qed.

(** The prompt of a non-empty context holds its segment once. *)
Lemma segment_once (c : string) :
  Text.occurrences ("Context: " +:+ c)
    ("You are a helpful AI assistant. " +:+ ("Context: " +:+ c) +:+ tail) = 1.
Proof.
  change ("Context: " +:+ c) with (String "C" ("ontext: " +:+ c)).
  rewrite occurrences_skip by reflexivity.
  rewrite occurrences_here_cons, str_app_assoc.
  rewrite occurrences_skip by reflexivity.
  change (String "C" ("ontext: " +:+ c)) with ("Context: " +:+ c).
  now rewrite segment_not_inside.
Qed.

(** The prompt of an empty context holds no ["Context:"]. *)
Lemma keyword_absent :
  Text.occurrences "Context:"
    ("You are a helpful AI assistant. " +:+ "" +:+ tail) = 0.
Proof.
  rewrite occurrences_skip by reflexivity.
  apply occurrences_zero. intros x y. apply tail_clean.
Qed.

End Occurrences.

(** ** The prompt template *)

(** C2. For every context and every message, rendering the prompt of a
    constructed service succeeds and yields exactly the preamble
    ["You are a helpful AI assistant. "], then the context segment
    (["Context: "] and the context when the context is not empty, nothing
    when it is), then a blank line, then ["User inquiry: "] and the
    message. *)
Theorem render_exact (environ : gmap string string) (self : GeminiChatService)
    (context msg : string) :
  GeminiChatService_init environ = Ok self ->
  render self context msg =
  Ok ("You are a helpful AI assistant. "
      +:+ (if String.eqb context "" then "" else "Context: " +:+ context)
      +:+ Text.nl +:+ Text.nl +:+ "User inquiry: " +:+ msg).
Proof.
  intros Hinit. rewrite (render_init _ _ _ _ Hinit).
  now destruct context.
Qed.

Lemma render_exact_witness :
  GeminiChatService_init sample_environ = Ok sample_service /\
  render sample_service "Opening hours" "Hello" =
  Ok ("You are a helpful AI assistant. Context: Opening hours"
      +:+ Text.nl +:+ Text.nl +:+ "User inquiry: Hello").
Proof.
  split; [vm_compute; reflexivity|].
  apply (render_exact sample_environ sample_service "Opening hours" "Hello").
  vm_compute; reflexivity.
Defined.

(** C3, as stated, fails: the message is copied into the prompt
    unescaped, so with an empty context and the message ["Context:"] the
    prompt holds one occurrence of ["Context:"], and with the context
    ["a"] and the message ["Context: a"] it holds the segment
    ["Context: a"] twice. *)
Lemma context_keyword_from_message :
  GeminiChatService_init sample_environ = Ok sample_service /\
  (exists prompt,
      render sample_service "" "Context:" = Ok prompt /\
      Text.occurrences "Context:" prompt = 1) /\
  (exists prompt,
      render sample_service "a" "Context: a" = Ok prompt /\
      Text.occurrences ("Context: " +:+ "a") prompt = 2).
Proof.
  split; [vm_compute; reflexivity|].
  split; eexists; (split; [vm_compute; reflexivity|]); vm_compute; reflexivity.
Qed.

(** C3, amended. For every message that does not itself contain
    ["Context:"]: with an empty context the rendered prompt contains no
    occurrence of ["Context:"]; with a non-empty context it contains
    exactly one occurrence of the segment ["Context: "] + context, which
    starts right after the preamble, and the ["User inquiry: "] + message
    segment starts after the end of that occurrence and ends the prompt. *)
Theorem context_segment_once (environ : gmap string string)
    (self : GeminiChatService) (context msg : string) :
  GeminiChatService_init environ = Ok self ->
  Text.contains "Context:" msg = false ->
  exists prompt,
    render self context msg = Ok prompt /\
    (context = "" -> Text.occurrences "Context:" prompt = 0) /\
    (context <> "" ->
       let segment := "Context: " +:+ context in
       let start := String.length "You are a helpful AI assistant. " in
       Text.occurrences segment prompt = 1 /\
       Text.startswith segment (Text.drop start prompt) = true /\
       Text.drop (start + String.length segment + 2) prompt
       = "User inquiry: " +:+ msg).
Proof.
  intros Hinit Hclean. apply contains_false in Hclean.
  eexists. split; [exact (render_init _ _ _ _ Hinit)|]. split.
  - intros ->. exact (keyword_absent msg Hclean).
  - intros Hne. assert (Ht : Text.truthy context = true) by now destruct context.
    rewrite Ht. cbv zeta. split; [exact (segment_once msg Hclean context)|]. split.
    + rewrite drop_app_length. apply startswith_app.
    + rewrite !drop_add, !drop_app_length. reflexivity.
Qed.

Lemma context_segment_once_witness :
  GeminiChatService_init sample_environ = Ok sample_service /\
  Text.contains "Context:" "Hello" = false /\
  exists prompt,
    render sample_service "Opening hours" "Hello" = Ok prompt /\
    Text.occurrences ("Context: " +:+ "Opening hours") prompt = 1.
Proof.
  split; [vm_compute; reflexivity|]. split; [vm_compute; reflexivity|].
  destruct (context_segment_once sample_environ sample_service
              "Opening hours" "Hello") as [prompt [Hr [_ Hseg]]];
    [vm_compute; reflexivity | vm_compute; reflexivity |].
  exists prompt. split; [exact Hr|].
  apply Hseg. discriminate.
Defined.

(** ** The conversation service and its endpoint *)

Ltac run_monad :=
  unfold try_except, bind, lift, ret, raise in *; simpl in *.

(** One call of [generate_response] is one call of the provider on the
    rendered prompt. *)
Lemma generate_response_run (self : GeminiChatService) (p : provider)
    (user_msg context prompt : string) (log : list string) :
  render self context user_msg = Ok prompt ->
  generate_response self p user_msg context log =
  (match p (llm self) log prompt with
   | Completed r => Ok r
   | Failed m => Raise (HTTPException 500 ("AI processing failed: " +:+ m))
   end, log ++ [prompt]).
Proof.
  unfold render. intros Hr.
  unfold generate_response, processing_chain_invoke. run_monad.
  rewrite Hr. now destruct (p (llm self) log prompt).
Qed.

(** Formatting can only fail on a missing key. *)
Lemma format_raises (t : list Template.piece) (kwargs : gmap string string)
    (e : exn) :
  Template.format t kwargs = Raise e -> exists k, e = KeyError k.
Proof.
  induction t as [|[text|name] t IH]; simpl; [discriminate| |].
  - destruct (Template.format t kwargs); [discriminate|].
    intros [= <-]. now apply IH.
  - destruct (kwargs !! name); [|intros [= <-]; eauto].
    destruct (Template.format t kwargs); [discriminate|].
    intros [= <-]. now apply IH.
Qed.

(** Whatever [generate_response] raises is an [HTTPException] with
    status 500. *)
Lemma generate_response_raises (self : GeminiChatService) (p : provider)
    (user_msg context : string) (log : list string) (e : exn) :
  fst (generate_response self p user_msg context log) = Raise e ->
  exists detail, e = HTTPException 500 detail.
Proof.
  unfold generate_response, processing_chain_invoke. run_monad.
  destruct (Template.format _ _) as [prompt|e0] eqn:Hf; simpl.
  - destruct (p (llm self) log prompt); simpl; intros [= <-]; eauto.
  - destruct (format_raises _ _ _ Hf) as [k ->]. simpl. intros [= <-]; eauto.
Qed.

(** The service of a constructed application is a constructed service. *)
Lemma create_app_service (environ : gmap string string) (application : FastAPI) :
  create_app environ = Ok application ->
  GeminiChatService_init environ = Ok (chat_service application).
Proof.
  unfold create_app. destruct (GeminiChatService_init environ); [|discriminate].
  now intros [= <-].
Qed.

(** The answer to a body that passes validation. *)
Lemma post_conversation_valid (application : FastAPI) (p : provider)
    (b : RequestBody) (req : MessageRequest) (prompt : string)
    (log : list string) :
  validate b = inl req ->
  render (chat_service application) (or_empty (background_info req)) (message req)
  = Ok prompt ->
  post_conversation application p b log =
  (match p (llm (chat_service application)) log prompt with
   | Completed r => {| status := 200; body := ReplyJson {| reply := r |} |}
   | Failed m =>
       {| status := 500; body := DetailJson ("AI processing failed: " +:+ m) |}
   end, log ++ [prompt]).
Proof.
  intros Hv Hr. unfold post_conversation, handle_conversation. rewrite Hv.
  unfold bind. rewrite (generate_response_run _ _ _ _ _ _ Hr).
  now destruct (p _ log prompt).
Qed.

Lemma validate_accepts (b : RequestBody) (msg : string) :
  body_message b = Some msg -> msg <> "" ->
  validate b =
  inl {| message := msg;
         background_info :=
           match body_background_info b with None => None | Some v => v end |}.
Proof.
  intros Hm Hne. unfold validate. rewrite Hm.
  destruct msg; [contradiction | reflexivity].
Qed.

(** C5. For every valid request, when the completion call raises with
    the message [m], the service raises an [HTTPException] with status
    500 and the detail ["AI processing failed: "] + [m], so POST
    [/conversation] answers 500 with that detail, which contains
    ["AI processing failed:"]; the provider has been called once, and no
    other text is returned. *)
Theorem provider_failure_is_500 (environ : gmap string string)
    (application : FastAPI) (p : provider) (b : RequestBody)
    (req : MessageRequest) (m : string) (log : list string) :
  create_app environ = Ok application ->
  validate b = inl req ->
  (forall prompt,
      render (chat_service application)
        (or_empty (background_info req)) (message req) = Ok prompt ->
      p (llm (chat_service application)) log prompt = Failed m) ->
  exists prompt,
    render (chat_service application)
      (or_empty (background_info req)) (message req) = Ok prompt /\
    generate_response (chat_service application) p
      (message req) (or_empty (background_info req)) log =
    (Raise (HTTPException 500 ("AI processing failed: " +:+ m)), log ++ [prompt]) /\
    post_conversation application p b log =
    ({| status := 500; body := DetailJson ("AI processing failed: " +:+ m) |},
     log ++ [prompt]) /\
    Text.contains "AI processing failed:" ("AI processing failed: " +:+ m) = true.
Proof.
  intros Happ Hv Hp. apply create_app_service in Happ.
  pose proof (render_init _ _ (or_empty (background_info req)) (message req) Happ)
    as Hr.
  eexists. split; [exact Hr|]. split; [|split].
  - rewrite (generate_response_run _ p _ _ _ log Hr). now rewrite (Hp _ Hr).
  - rewrite (post_conversation_valid application p b req _ log Hv Hr).
    now rewrite (Hp _ Hr).
  - change ("AI processing failed: " +:+ m)
      with ("AI processing failed:" +:+ (" " +:+ m)).
    apply contains_prefix.
Qed.

Lemma provider_failure_is_500_witness :
  create_app sample_environ = Ok sample_app /\
  exists prompt,
    post_conversation sample_app (broken "quota exceeded")
      {| body_message := Some "Hello"; body_background_info := None |} [] =
    ({| status := 500;
        body := DetailJson "AI processing failed: quota exceeded" |},
     [prompt]).
Proof.
  split; [vm_compute; reflexivity|].
  destruct (provider_failure_is_500 sample_environ sample_app
              (broken "quota exceeded")
              {| body_message := Some "Hello"; body_background_info := None |}
              {| message := "Hello"; background_info := None |}
              "quota exceeded" [])
    as [prompt [_ [_ [Hpost _]]]].
  - vm_compute; reflexivity.
  - reflexivity.
  - intros prompt _. reflexivity.
  - exists prompt. exact Hpost.
Defined.


(** C6. When the API key variable is absent from the environment, the
    constructor of the service raises, the application factory fails
    with it and no request is served; when the variable holds a
    non-empty key, the construction succeeds, with that key. *)
Theorem api_key_required (environ : gmap string string) :
  (getenv environ "GOOGLE_API_KEY" = None ->
   let e := ValueError "GOOGLE_API_KEY environment variable is required" in
   GeminiChatService_init environ = Raise e /\
   create_app environ = Raise e /\
   forall p b log, serve_conversation environ p b log = Raise e) /\
  (forall key,
      getenv environ "GOOGLE_API_KEY" = Some key -> key <> "" ->
      exists application,
        create_app environ = Ok application /\
        google_api_key (llm (chat_service application)) = key).
Proof.
  split.
  - intros Hnone. cbv zeta.
    assert (Hinit : GeminiChatService_init environ =
                    Raise (ValueError "GOOGLE_API_KEY environment variable is required")).
    { unfold GeminiChatService_init. now rewrite Hnone. }
    assert (Happ : create_app environ =
                   Raise (ValueError "GOOGLE_API_KEY environment variable is required")).
    { unfold create_app. now rewrite Hinit. }
    repeat split; [exact Hinit | exact Happ |].
    intros p b log. unfold serve_conversation, app. now rewrite Happ.
  - intros key Hkey Hne. unfold create_app, GeminiChatService_init.
    rewrite Hkey, from_template_source.
    destruct key as [|a key]; [contradiction|]. simpl.
    eexists. split; reflexivity.
Qed.

Lemma api_key_required_witness :
  (getenv ∅ "GOOGLE_API_KEY" = None /\
   create_app ∅ =
   Raise (ValueError "GOOGLE_API_KEY environment variable is required")) /\
  (getenv sample_environ "GOOGLE_API_KEY" = Some "sample-key" /\
   exists application, create_app sample_environ = Ok application).
Proof.
  split.
  - split; [reflexivity|].
    destruct (api_key_required ∅) as [Habsent _].
    destruct (Habsent eq_refl) as [_ [Happ _]]. exact Happ.
  - split; [vm_compute; reflexivity|].
    destruct (api_key_required sample_environ) as [_ Hpresent].
    destruct (Hpresent "sample-key") as [application [Happ _]];
      [vm_compute; reflexivity | discriminate |].
    exists application. exact Happ.
Defined.

(** ** The chat client *)

Lemma raise_for_status_error (r : Response) :
  400 <= status_code r < 600 ->
  exists details, raise_for_status r = Raise (RequestException details).
Proof.
  intros [Hlo Hhi]. unfold raise_for_status.
  destruct ((400 <=? status_code r) && (status_code r <? 500)) eqn:H4; [eauto|].
  destruct ((500 <=? status_code r) && (status_code r <? 600)) eqn:H5; [eauto|].
  apply andb_false_iff in H4, H5.
  rewrite !Nat.leb_gt, !Nat.ltb_ge in *. lia.
Qed.

Lemma raise_for_status_pass (r : Response) :
  ~ 400 <= status_code r < 600 -> raise_for_status r = Ok tt.
Proof.
  intros Hout. unfold raise_for_status.
  destruct ((400 <=? status_code r) && (status_code r <? 500)) eqn:H4.
  { apply andb_true_iff in H4. rewrite Nat.leb_le, Nat.ltb_lt in H4. lia. }
  destruct ((500 <=? status_code r) && (status_code r <? 600)) eqn:H5;
    [|reflexivity].
  apply andb_true_iff in H5. rewrite Nat.leb_le, Nat.ltb_lt in H5. lia.
Qed.

Lemma raise_for_status_raises (r : Response) (e : exn) :
  raise_for_status r = Raise e -> exists details, e = RequestException details.
Proof.
  unfold raise_for_status.
  destruct (_ && _); [intros [= <-]; eauto|].
  destruct (_ && _); [intros [= <-]; eauto | discriminate].
Qed.

Lemma subscript_raises (v : json) (key : string) (e : exn) :
  subscript v key = Raise e -> is_RequestException e = false.
Proof.
  destruct v; simpl; try (intros [= <-]; reflexivity).
  destruct (member key members); [discriminate | now intros [= <-]].
Qed.

(** What one call of [send_message] does, by the answer of the network. *)
Lemma send_message_run (self : ChatClient) (net : transport)
    (msg : string) (context : option string) (st : console) :
  let rq := {| url := base_url self +:+ "/conversation";
               json_payload := request_payload msg context |} in
  send_message self net msg context st =
  (match net (requests st) rq with
   | Unsent details => Ok (JStr ("Error: " +:+ details))
   | Responded r =>
       match raise_for_status r with
       | Raise e => Ok (JStr ("Error: " +:+ str_exn e))
       | Ok _ =>
           match text r with
           | inr (InvalidJSON details) => Ok (JStr ("Error: " +:+ details))
           | inr (InvalidJSONLegacy details) => Raise (ValueError details)
           | inl v => subscript v "reply"
           end
       end
   end,
   {| requests := requests st ++ [rq]; stdout := stdout st |}).
Proof.
  cbv zeta. unfold send_message, session_post, response_json. run_monad.
  destruct (net (requests st) _) as [r|details]; simpl; [|reflexivity].
  destruct (raise_for_status r) as [[]|e] eqn:Hs; simpl.
  - destruct (text r) as [v|[details|details]]; simpl; [|reflexivity..].
    destruct (subscript v "reply") as [w|e] eqn:Hsub; simpl; [reflexivity|].
    now rewrite (subscript_raises _ _ _ Hsub).
  - destruct (raise_for_status_raises _ _ Hs) as [details ->]. reflexivity.
Qed.

(** [send_message] sends one request and prints nothing. *)
Lemma send_message_console (self : ChatClient) (net : transport)
    (msg : string) (context : option string) (st : console) :
  snd (send_message self net msg context st) =
  {| requests := requests st ++
                 [{| url := base_url self +:+ "/conversation";
                     json_payload := request_payload msg context |}];
     stdout := stdout st |}.
Proof. now rewrite send_message_run. Qed.

(** An exception that leaves [send_message] is no [RequestException] and
    no [KeyboardInterrupt]: it comes from the subscript. *)
Lemma send_message_raises (self : ChatClient) (net : transport)
    (msg : string) (context : option string) (st : console) (e : exn) :
  fst (send_message self net msg context st) = Raise e ->
  is_RequestException e = false /\ is_KeyboardInterrupt e = false.
Proof.
  rewrite send_message_run. simpl.
  destruct (net _ _) as [r|]; [|discriminate].
  destruct (raise_for_status r); [|discriminate].
  destruct (text r) as [v|[details|details]];
    [|discriminate|intros [= <-]; split; reflexivity].
  destruct v; simpl; try (intros [= <-]; split; reflexivity).
  destruct (member "reply" members); [discriminate | now intros [= <-]].
Qed.

(** C7, as stated, fails.  [send_message] catches [RequestException]
    only: against a server that answers 200 with the body [{}] the
    subscript [["reply"]] raises [KeyError] to the caller; and a status
    below 400 is no error for [raise_for_status], so a 300 answer (no
    redirect: it names no location) that carries a [reply] member is
    returned as a reply, not as ["Error: ..."]. *)
Lemma send_message_not_total :
  fst (send_message sample_client (answering 200 "OK" (JObj []))
         "ping" None fresh_console) = Raise (KeyError "reply") /\
  fst (send_message sample_client
         (answering 300 "Multiple Choices" (JObj [("reply", JStr "stale")]))
         "ping" None fresh_console) = Ok (JStr "stale").
Proof. split; vm_compute; reflexivity. Qed.

(** C7, amended.  Against a server that answers 200 with a JSON object
    that has a [reply] member, [send_message] returns that member
    (["pong"] for [{"reply": "pong"}]); when the request cannot be sent
    (connection refused, timeout) or the answer has a status in 400-599,
    it returns a text that starts with ["Error: "], followed by the
    details of the failure; and no [RequestException] ever reaches the
    caller. *)
Theorem send_message_outcomes (self : ChatClient) (net : transport)
    (msg : string) (context : option string) (st : console) :
  let rq := {| url := base_url self +:+ "/conversation";
               json_payload := request_payload msg context |} in
  let outcome := fst (send_message self net msg context st) in
  (forall r members v,
      net (requests st) rq = Responded r ->
      status_code r = 200 ->
      text r = inl (JObj members) ->
      member "reply" members = Some v ->
      outcome = Ok v) /\
  (forall details,
      net (requests st) rq = Unsent details ->
      outcome = Ok (JStr ("Error: " +:+ details))) /\
  (forall r,
      net (requests st) rq = Responded r ->
      400 <= status_code r < 600 ->
      exists details, outcome = Ok (JStr ("Error: " +:+ details))) /\
  (forall e, outcome = Raise e -> is_RequestException e = false).
Proof.
  cbv zeta. repeat split.
  - intros r members v Hnet Hstatus Htext Hreply.
    rewrite send_message_run. simpl.
    rewrite Hnet, raise_for_status_pass, Htext by (rewrite Hstatus; lia). simpl.
    now rewrite Hreply.
  - intros details Hnet. rewrite send_message_run. simpl. now rewrite Hnet.
  - intros r Hnet Hstatus. rewrite send_message_run. simpl. rewrite Hnet.
    destruct (raise_for_status_error _ Hstatus) as [details ->]. eauto.
  - intros e He. now apply send_message_raises in He.
Qed.

Lemma send_message_outcomes_witness :
  fst (send_message sample_client
         (answering 200 "OK" (JObj [("reply", JStr "pong")]))
         "ping" None fresh_console) = Ok (JStr "pong") /\
  fst (send_message sample_client unreachable "ping" None fresh_console)
  = Ok (JStr "Error: Connection refused") /\
  exists details,
    fst (send_message sample_client
           (answering 500 "Internal Server Error" (JObj []))
           "ping" None fresh_console) = Ok (JStr ("Error: " +:+ details)).
Proof.
  split; [|split].
  - destruct (send_message_outcomes sample_client
                (answering 200 "OK" (JObj [("reply", JStr "pong")]))
                "ping" None fresh_console) as [Hreply _].
    apply (Hreply _ [("reply", JStr "pong")] (JStr "pong") eq_refl);
      reflexivity.
  - destruct (send_message_outcomes sample_client unreachable
                "ping" None fresh_console) as [_ [Hunsent _]].
    exact (Hunsent "Connection refused" eq_refl).
  - destruct (send_message_outcomes sample_client
                (answering 500 "Internal Server Error" (JObj []))
                "ping" None fresh_console) as [_ [_ [Hstatus _]]].
    apply (Hstatus _ eq_refl). simpl. lia.
Defined.

(** ** The interactive loop *)

(** One turn of the loop on a typed line, branch by branch. *)
Lemma interactive_step_line (self : ChatClient) (net : transport)
    (line context : string) (st : console) :
  let user_input := Text.strip line in
  interactive_step self net (Line line) context st =
  if bool_decide (Text.lower user_input ∈ ["quit"; "exit"; "q"]) then
    (Ok Break,
     {| requests := requests st; stdout := (stdout st ++ [PromptYou]) ++ [Goodbye] |})
  else if String.eqb (Text.lower user_input) "clear" then
    (Ok (Continue ""),
     {| requests := requests st;
        stdout := (stdout st ++ [PromptYou]) ++ [ContextCleared] |})
  else if negb (Text.truthy user_input) then
    (Ok (Continue context),
     {| requests := requests st; stdout := stdout st ++ [PromptYou] |})
  else
    match send_message self net user_input (Some context)
            {| requests := requests st;
               stdout := (stdout st ++ [PromptYou]) ++ [AIPrefix] |} with
    | (Ok v, st') =>
        (Ok (Continue context),
         {| requests := requests st';
            stdout := (stdout st' ++ [Printed v]) ++ [BlankLine] |})
    | (Raise e, st') => (Raise e, st')
    end.
Proof.
  cbv zeta. unfold interactive_step, input, print. run_monad.
  case_bool_decide; simpl; [reflexivity|].
  destruct (String.eqb _ "clear"); simpl; [reflexivity|].
  destruct (Text.truthy (Text.strip line)); simpl; [|reflexivity].
  match goal with
  | |- context [send_message ?a ?b ?c ?d ?e] =>
      pose proof (send_message_raises a b c d e) as Hr;
      destruct (send_message a b c d e) as [[v|e0] st']
  end; simpl in *; [reflexivity|].
  destruct (Hr e0 eq_refl) as [_ Hk]. now rewrite Hk.
Qed.

Lemma clear_is_no_quit_word : "clear" ∉ ["quit"; "exit"; "q"].
Proof. intros H. apply list_elem_of_In in H. simpl in H. intuition discriminate. Qed.

Lemma empty_is_no_quit_word : "" ∉ ["quit"; "exit"; "q"].
Proof. intros H. apply list_elem_of_In in H. simpl in H. intuition discriminate. Qed.

Lemma truthy_true (s : string) : s <> "" -> Text.truthy s = true.
Proof. now destruct s. Qed.

Lemma request_payload_message (msg : string) (context : option string) :
  request_payload msg context !! "message" = Some msg.
Proof.
  unfold request_payload. destruct (negb (falsy context)).
  - rewrite lookup_insert_ne by discriminate. apply lookup_singleton_eq.
  - apply lookup_singleton_eq.
Qed.

Lemma request_payload_background_info (msg context : string) :
  request_payload msg (Some context) !! "background_info" =
  if String.eqb context "" then None else Some context.
Proof.
  unfold request_payload. destruct context as [|a context]; simpl.
  - now rewrite lookup_singleton_ne.
  - now rewrite lookup_insert_eq.
Qed.

(** The requests one turn of the loop adds: none, or the stripped line. *)
Lemma interactive_step_requests (self : ChatClient) (net : transport)
    (ev : input_event) (context : string) (st : console) :
  requests (snd (interactive_step self net ev context st)) = requests st \/
  exists line,
    ev = Line line /\ Text.strip line <> "" /\
    requests (snd (interactive_step self net ev context st)) =
    requests st ++
    [{| url := base_url self +:+ "/conversation";
        json_payload := request_payload (Text.strip line) (Some context) |}].
Proof.
  destruct ev as [line| |]; [|now left..].
  rewrite interactive_step_line. cbv zeta.
  case_bool_decide; [now left|].
  destruct (String.eqb _ "clear"); [now left|].
  destruct (Text.strip line) as [|a t] eqn:Hs; [now left|].
  right. exists line. rewrite Hs. split; [reflexivity|]. split; [discriminate|].
  simpl negb. cbv iota.
  pose proof (send_message_console self net (String a t) (Some context)
                {| requests := requests st;
                   stdout := (stdout st ++ [PromptYou]) ++ [AIPrefix] |}) as Hc.
  destruct (send_message _ _ _ _ _) as [[v|e] st']; simpl in *; now subst st'.
Qed.

(** The control one turn of the loop returns after a request. *)
Lemma interactive_step_sent_control (self : ChatClient) (net : transport)
    (line context : string) (st : console) (c : control) :
  Text.lower (Text.strip line) ∉ ["quit"; "exit"; "q"] ->
  Text.lower (Text.strip line) <> "clear" ->
  Text.strip line <> "" ->
  fst (interactive_step self net (Line line) context st) = Ok c ->
  c = Continue context.
Proof.
  intros Hq Hc Hs. rewrite interactive_step_line. cbv zeta.
  rewrite bool_decide_eq_false_2 by exact Hq.
  apply String.eqb_neq in Hc. rewrite Hc, (truthy_true _ Hs). simpl negb. cbv iota.
  destruct (send_message _ _ _ _ _) as [[v|e] st']; simpl; [|discriminate].
  now intros [= <-].
Qed.

(** A line that strips and lower-cases to a quit word ends the loop. *)
Lemma interactive_step_quit (self : ChatClient) (net : transport)
    (line context : string) (st : console) :
  Text.lower (Text.strip line) ∈ ["quit"; "exit"; "q"] ->
  interactive_step self net (Line line) context st =
  (Ok Break,
   {| requests := requests st; stdout := (stdout st ++ [PromptYou]) ++ [Goodbye] |}).
Proof.
  intros Hq. rewrite interactive_step_line. cbv zeta.
  now rewrite bool_decide_eq_true_2 by exact Hq.
Qed.

(** A line that strips and lower-cases to ["clear"] resets the context. *)
Lemma interactive_step_clear (self : ChatClient) (net : transport)
    (line context : string) (st : console) :
  Text.lower (Text.strip line) = "clear" ->
  interactive_step self net (Line line) context st =
  (Ok (Continue ""),
   {| requests := requests st;
      stdout := (stdout st ++ [PromptYou]) ++ [ContextCleared] |}).
Proof.
  intros Hc. rewrite interactive_step_line. cbv zeta. rewrite Hc.
  now rewrite bool_decide_eq_false_2 by exact clear_is_no_quit_word.
Qed.

(** A line that strips to nothing is skipped. *)
Lemma interactive_step_skip (self : ChatClient) (net : transport)
    (line context : string) (st : console) :
  Text.strip line = "" ->
  interactive_step self net (Line line) context st =
  (Ok (Continue context),
   {| requests := requests st; stdout := stdout st ++ [PromptYou] |}).
Proof.
  intros Hs. rewrite interactive_step_line. cbv zeta. rewrite Hs.
  simpl Text.lower.
  now rewrite bool_decide_eq_false_2 by exact empty_is_no_quit_word.
Qed.

(** Any other line is sent, stripped, with the held context. *)
Lemma interactive_step_send (self : ChatClient) (net : transport)
    (line context : string) (st : console) :
  Text.lower (Text.strip line) ∉ ["quit"; "exit"; "q"] ->
  Text.lower (Text.strip line) <> "clear" ->
  Text.strip line <> "" ->
  requests (snd (interactive_step self net (Line line) context st)) =
  requests st ++
  [{| url := base_url self +:+ "/conversation";
      json_payload := request_payload (Text.strip line) (Some context) |}].
Proof.
  intros Hq Hc Hs. rewrite interactive_step_line. cbv zeta.
  rewrite bool_decide_eq_false_2 by exact Hq.
  apply String.eqb_neq in Hc. rewrite Hc, (truthy_true _ Hs). simpl negb. cbv iota.
  pose proof (send_message_console self net (Text.strip line) (Some context)
                {| requests := requests st;
                   stdout := (stdout st ++ [PromptYou]) ++ [AIPrefix] |}) as Hcon.
  destruct (send_message _ _ _ _ _) as [[v|e] st']; simpl in *; now subst st'.
Qed.

(** C8, as stated, fails: ["QUIT"] is none of ["quit"], ["exit"], ["q"],
    ["clear"] and is not blank, yet it is not sent as a message: the loop
    ends, with no request. *)
Lemma uppercase_quit_is_not_sent :
  ("QUIT" <> "quit" /\ "QUIT" <> "exit" /\ "QUIT" <> "q" /\
   "QUIT" <> "clear" /\ "QUIT" <> "") /\
  interactive_step sample_client
    (answering 200 "OK" (JObj [("reply", JStr "pong")]))
    (Line "QUIT") "" fresh_console =
  (Ok Break, {| requests := []; stdout := [PromptYou; Goodbye] |}).
Proof. split; [repeat split; discriminate | vm_compute; reflexivity]. Qed.

(** C8, amended.  One turn of the loop on a typed line, with the held
    context, goes by the line stripped of surrounding whitespace and its
    lower-case form: when the lower-case form is ["quit"], ["exit"] or
    ["q"] the loop ends and no request is sent; when it is ["clear"] the
    held context becomes [""], no request is sent and the loop goes on;
    when the stripped line is empty nothing is sent and the context is
    kept; any other line is sent, stripped, as the [message] of one
    request, together with the held context ([background_info], when the
    context is not empty), and the context is kept. *)
Theorem interactive_step_cases (self : ChatClient) (net : transport)
    (line context : string) (st : console) :
  let user_input := Text.strip line in
  let word := Text.lower user_input in
  let step := interactive_step self net (Line line) context st in
  (word ∈ ["quit"; "exit"; "q"] ->
   fst step = Ok Break /\ requests (snd step) = requests st) /\
  (word = "clear" ->
   fst step = Ok (Continue "") /\ requests (snd step) = requests st) /\
  (user_input = "" ->
   fst step = Ok (Continue context) /\ requests (snd step) = requests st) /\
  (word ∉ ["quit"; "exit"; "q"] -> word <> "clear" -> user_input <> "" ->
   let data := request_payload user_input (Some context) in
   requests (snd step) =
   requests st ++ [{| url := base_url self +:+ "/conversation";
                      json_payload := data |}] /\
   data !! "message" = Some user_input /\
   data !! "background_info" = (if String.eqb context "" then None else Some context) /\
   (forall c, fst step = Ok c -> c = Continue context)).
Proof.
  cbv zeta. repeat apply conj.
  - intros Hq. now rewrite interactive_step_quit.
  - intros Hc. now rewrite interactive_step_clear.
  - intros Hs. now rewrite interactive_step_skip.
  - intros Hq Hc Hs. repeat apply conj.
    + now apply interactive_step_send.
    + apply request_payload_message.
    + apply request_payload_background_info.
    + intros c. now apply interactive_step_sent_control.
Qed.

Lemma interactive_step_cases_witness :
  (fst (interactive_step sample_client unreachable (Line "quit") "" fresh_console)
   = Ok Break) /\
  (fst (interactive_step sample_client unreachable (Line "clear") "held" fresh_console)
   = Ok (Continue "")) /\
  (fst (interactive_step sample_client unreachable (Line "") "held" fresh_console)
   = Ok (Continue "held")) /\
  (requests (snd (interactive_step sample_client unreachable
                    (Line "Hello") "held" fresh_console))
   = [{| url := "http://127.0.0.1:8000/conversation";
         json_payload := request_payload "Hello" (Some "held") |}]).
Proof.
  repeat apply conj.
  - apply (interactive_step_cases sample_client unreachable "quit" "" fresh_console).
    apply (proj1 (bool_decide_eq_true _)). vm_compute; reflexivity.
  - apply (interactive_step_cases sample_client unreachable "clear" "held"
             fresh_console).
    vm_compute; reflexivity.
  - apply (interactive_step_cases sample_client unreachable "" "held" fresh_console).
    vm_compute; reflexivity.
  - apply (interactive_step_cases sample_client unreachable "Hello" "held"
             fresh_console).
    + apply (proj1 (bool_decide_eq_false _)). vm_compute; reflexivity.
    + vm_compute. discriminate.
    + vm_compute. discriminate.
Defined.

(** Every request of a run of the loop carries a stripped, non-empty
    line as its message: by induction on the input events. *)
Lemma chat_loop_sent (self : ChatClient) (net : transport)
    (events : list input_event) :
  forall (context : string) (st : console),
  exists sent,
    requests (snd (chat_loop self net events context st)) = requests st ++ sent /\
    Forall (fun rq =>
              exists typed,
                json_payload rq !! "message" = Some (Text.strip typed) /\
                Text.strip typed <> "")
           sent.
Proof.
  induction events as [|ev rest IH]; intros context st.
  - exists []. simpl. now rewrite app_nil_r.
  - assert (Hstep : exists sent,
               requests (snd (interactive_step self net ev context st))
               = requests st ++ sent /\
               Forall (fun rq =>
                         exists typed,
                           json_payload rq !! "message" = Some (Text.strip typed) /\
                           Text.strip typed <> "")
                      sent).
    { destruct (interactive_step_requests self net ev context st)
        as [Hsame | [line [_ [Hne Hsent]]]].
      - exists []. now rewrite app_nil_r.
      - eexists. split; [exact Hsent|].
        constructor; [|constructor]. exists line. simpl.
        split; [apply request_payload_message | exact Hne]. }
    destruct Hstep as [sent1 [Hreq1 Hall1]].
    simpl. unfold bind.
    destruct (interactive_step self net ev context st) as [[c|e] st1];
      simpl in *; [|now exists sent1].
    destruct c as [|context']; simpl; [now exists sent1|].
    destruct (IH context' st1) as [sent2 [Hreq2 Hall2]].
    exists (sent1 ++ sent2). split.
    + now rewrite Hreq2, Hreq1, <- List.app_assoc.
    + now apply Forall_app.
Qed.

(** ** Further properties of the service *)

(** [create_app] reads the environment through the key alone. *)
Lemma create_app_by_key (environ : gmap string string) :
  create_app environ =
  match getenv environ "GOOGLE_API_KEY" with
  | Some (String a key) =>
      Ok {| title := "AI Chat Service";
            description := "RESTful API for conversational AI using Google Gemini";
            version := "1.0.0";
            chat_service :=
              {| llm := {| model := "gemini-2.5-flash";
                           google_api_key := String a key;
                           temperature := (7, 10) |};
                 template :=
                   [Template.Lit "You are a helpful AI assistant. ";
                    Template.Var "background_context";
                    Template.Lit (Text.nl +:+ Text.nl +:+ "User inquiry: ");
                    Template.Var "user_message"] |} |}
  | _ => Raise (ValueError "GOOGLE_API_KEY environment variable is required")
  end.
Proof.
  unfold create_app, GeminiChatService_init.
  destruct (getenv environ "GOOGLE_API_KEY") as [[|a key]|]; reflexivity.
Qed.

(** X1. The application is built exactly when the environment holds a
    non-empty API key: an empty key is refused with the same error as
    an absent one, and no other variable of the environment has any
    effect on the application built. *)
Theorem create_app_needs_nonempty_key (environ environ' : gmap string string) :
  (create_app environ =
   Raise (ValueError "GOOGLE_API_KEY environment variable is required")
   <-> getenv environ "GOOGLE_API_KEY" = None \/
       getenv environ "GOOGLE_API_KEY" = Some "") /\
  ((exists application, create_app environ = Ok application)
   <-> exists key, getenv environ "GOOGLE_API_KEY" = Some key /\ key <> "") /\
  (getenv environ "GOOGLE_API_KEY" = getenv environ' "GOOGLE_API_KEY" ->
   create_app environ = create_app environ').
Proof.
  rewrite !create_app_by_key. repeat apply conj.
  - destruct (getenv environ "GOOGLE_API_KEY") as [[|a key]|];
      [now right | discriminate | now left].
  - intros [H|H]; now rewrite H.
  - intros [application H].
    destruct (getenv environ "GOOGLE_API_KEY") as [[|a key]|];
      [discriminate | | discriminate].
    exists (String a key). now split.
  - intros [key [-> Hne]]. destruct key; [contradiction | eauto].
  - now intros ->.
Qed.

Lemma create_app_needs_nonempty_key_witness :
  getenv sample_environ "GOOGLE_API_KEY"
  = getenv (<["HOME" := "/root"]> sample_environ) "GOOGLE_API_KEY" /\
  create_app sample_environ = create_app (<["HOME" := "/root"]> sample_environ) /\
  create_app {[ "GOOGLE_API_KEY" := "" ]} =
  Raise (ValueError "GOOGLE_API_KEY environment variable is required").
Proof.
  split; [vm_compute; reflexivity|]. split.
  - apply (create_app_needs_nonempty_key sample_environ
             (<["HOME" := "/root"]> sample_environ)).
    vm_compute; reflexivity.
  - apply (create_app_needs_nonempty_key {[ "GOOGLE_API_KEY" := "" ]} ∅).
    right. vm_compute; reflexivity.
Defined.

(** What one call of [generate_response] does on any service: the
    template is formatted; if that fails the provider is not called,
    otherwise it is called once. *)
Lemma generate_response_cases (self : GeminiChatService) (p : provider)
    (user_msg context : string) (log : list string) :
  generate_response self p user_msg context log =
  match render self context user_msg with
  | Ok prompt =>
      (match p (llm self) log prompt with
       | Completed r => Ok r
       | Failed m => Raise (HTTPException 500 ("AI processing failed: " +:+ m))
       end, log ++ [prompt])
  | Raise e =>
      (Raise (HTTPException 500 ("AI processing failed: " +:+ str_exn e)), log)
  end.
Proof.
  destruct (render self context user_msg) as [prompt|e] eqn:Hr.
  - exact (generate_response_run _ _ _ _ _ _ Hr).
  - unfold render in Hr.
    unfold generate_response, processing_chain_invoke. run_monad.
    rewrite Hr. simpl.
    destruct (format_raises _ _ _ Hr) as [k ->]. reflexivity.
Qed.

(** The answer of POST [/conversation] on any application. *)
Lemma post_conversation_cases (application : FastAPI) (p : provider)
    (b : RequestBody) (log : list string) :
  post_conversation application p b log =
  match validate b with
  | inr errors => ({| status := 422; body := ValidationJson errors |}, log)
  | inl req =>
      match render (chat_service application)
              (or_empty (background_info req)) (message req) with
      | Ok prompt =>
          (match p (llm (chat_service application)) log prompt with
           | Completed r => {| status := 200; body := ReplyJson {| reply := r |} |}
           | Failed m =>
               {| status := 500;
                  body := DetailJson ("AI processing failed: " +:+ m) |}
           end, log ++ [prompt])
      | Raise e =>
          ({| status := 500;
              body := DetailJson ("AI processing failed: " +:+ str_exn e) |}, log)
      end
  end.
Proof.
  unfold post_conversation, handle_conversation, bind.
  destruct (validate b) as [req|errors]; [|reflexivity].
  rewrite generate_response_cases.
  destruct (render _ _ _) as [prompt|e]; [|reflexivity].
  now destruct (p _ log prompt).
Qed.


Lemma post_conversation_log (application : FastAPI) (p : provider)
    (b : RequestBody) (log : list string) :
  snd (post_conversation application p b log) = log ++ prompts_of application b.
Proof.
  rewrite post_conversation_cases. unfold prompts_of.
  destruct (validate b) as [req|errors]; simpl; [|now rewrite app_nil_r].
  destruct (render _ _ _) as [prompt|e]; simpl; [reflexivity | now rewrite app_nil_r].
Qed.

Lemma served_log (application : FastAPI) (p : provider) (endpoint : string)
    (history : list Request) :
  forall log,
    served application p endpoint history log =
    log ++ concat (map (fun rq =>
                          if String.eqb (url rq) endpoint
                          then prompts_of application (received_body (json_payload rq))
                          else [])
                       history).
Proof.
  induction history as [|rq rest IH]; intros log; simpl.
  - now rewrite app_nil_r.
  - rewrite IH. destruct (String.eqb (url rq) endpoint).
    + now rewrite post_conversation_log, <- List.app_assoc.
    + reflexivity.
Qed.

(** X3. The service keeps no conversation: the prompts a request sends
    to the provider depend on that request alone, not on the provider's
    answers nor on what was served before; so after any history of
    requests the provider has received, in order, the prompts of the
    requests sent to the endpoint. *)
Theorem provider_sees_each_request_alone (application : FastAPI)
    (p : provider) (b : RequestBody) (endpoint : string)
    (history : list Request) (log : list string) :
  snd (post_conversation application p b log) = log ++ prompts_of application b /\
  length (prompts_of application b) <= 1 /\
  served application p endpoint history log =
  log ++ concat (map (fun rq =>
                        if String.eqb (url rq) endpoint
                        then prompts_of application (received_body (json_payload rq))
                        else [])
                     history).
Proof.
  split; [apply post_conversation_log|]. split; [|apply served_log].
  unfold prompts_of. destruct (validate b); [|simpl; lia].
  destruct (render _ _ _); simpl; lia.
Qed.

(** ** Further properties of the prompt *)

Section PromptReading.

Local Arguments String.append : simpl nomatch.

(** A text cut at its first line feed is cut in one way only. *)
Lemma split_at_line_feed (c1 c2 t1 t2 : string) :
  has_line_feed c1 = false ->
  has_line_feed c2 = false ->
  c1 +:+ String (ascii_of_nat 10) t1 = c2 +:+ String (ascii_of_nat 10) t2 ->
  c1 = c2 /\ t1 = t2.
Proof.
  revert c2. induction c1 as [|a c1 IH]; intros c2 H1 H2 E.
  - destruct c2 as [|b c2]; simpl in E.
    + injection E as E. now split.
    + injection E as Hb _. subst b.
      unfold has_line_feed in H2. simpl in H2. discriminate H2.
  - destruct c2 as [|b c2]; simpl in E.
    + injection E as Ha _. subst a.
      unfold has_line_feed in H1. simpl in H1. discriminate H1.
    + injection E as -> E.
      unfold has_line_feed in *. simpl in H1, H2.
      apply orb_false_iff in H1 as [_ H1]. apply orb_false_iff in H2 as [_ H2].
      destruct (IH c2 H1 H2 E) as [-> ->]. now split.
Qed.

(** The context segment of a context without line feed has none. *)
Lemma segment_no_line_feed (c : string) :
  has_line_feed c = false ->
  has_line_feed (if Text.truthy c then "Context: " +:+ c else "") = false.
Proof.
  intros Hc. destruct (Text.truthy c); [|reflexivity].
  unfold has_line_feed in *. now rewrite has_char_app, Hc.
Qed.

(** X4. A prompt can be read back: for contexts that hold no line feed,
    two renderings are equal only if the contexts are equal and the
    messages are equal. *)
Theorem render_injective (environ : gmap string string)
    (self : GeminiChatService) (c1 m1 c2 m2 : string) :
  GeminiChatService_init environ = Ok self ->
  has_line_feed c1 = false ->
  has_line_feed c2 = false ->
  render self c1 m1 = render self c2 m2 ->
  c1 = c2 /\ m1 = m2.
Proof.
  intros Hinit H1 H2.
  rewrite !(render_init _ _ _ _ Hinit). intros E.
  assert (E' : (if Text.truthy c1 then "Context: " +:+ c1 else "")
               +:+ String (ascii_of_nat 10)
                     (Text.nl +:+ "User inquiry: " +:+ m1)
               = (if Text.truthy c2 then "Context: " +:+ c2 else "")
               +:+ String (ascii_of_nat 10)
                     (Text.nl +:+ "User inquiry: " +:+ m2)).
  { injection E as E. exact E. }
  destruct (split_at_line_feed _ _ _ _
              (segment_no_line_feed _ H1) (segment_no_line_feed _ H2) E')
    as [Ec Em].
  split.
  - destruct c1 as [|a1 c1], c2 as [|a2 c2]; simpl in Ec;
      [reflexivity | discriminate | discriminate |].
    injection Ec; intros; subst; reflexivity.
  - apply (str_app_inv_head (Text.nl +:+ "User inquiry: ")).
    rewrite !str_app_assoc. exact Em.
Qed.

Lemma render_injective_witness :
  GeminiChatService_init sample_environ = Ok sample_service /\
  has_line_feed "Opening hours" = false /\
  ("Opening hours" = "Opening hours" /\ "Hello" = "Hello").
Proof.
  split; [vm_compute; reflexivity|]. split; [vm_compute; reflexivity|].
  apply (render_injective sample_environ sample_service
           "Opening hours" "Hello" "Opening hours" "Hello");
    vm_compute; reflexivity.
Defined.

(** X5. With a line feed in the context the prompt cannot be read back:
    for a non-empty [a], the context [a], a blank line, ["User inquiry: "]
    and [b] with the message [c] is rendered as the context [a] with the
    message [b], a blank line, ["User inquiry: "] and [c]. *)
Theorem render_context_forges_inquiry (environ : gmap string string)
    (self : GeminiChatService) (a b c : string) :
  GeminiChatService_init environ = Ok self ->
  a <> "" ->
  render self (a +:+ Text.nl +:+ Text.nl +:+ "User inquiry: " +:+ b) c =
  render self a (b +:+ Text.nl +:+ Text.nl +:+ "User inquiry: " +:+ c).
Proof.
  intros Hinit Ha. rewrite !(render_init _ _ _ _ Hinit).
  destruct a as [|x a]; [contradiction|]. simpl Text.truthy. cbv iota.
  now rewrite !str_app_assoc.
Qed.

Lemma render_context_forges_inquiry_witness :
  GeminiChatService_init sample_environ = Ok sample_service /\
  render sample_service
    ("Opening hours" +:+ Text.nl +:+ Text.nl +:+ "User inquiry: " +:+ "Hi") "Bye" =
  render sample_service "Opening hours"
    ("Hi" +:+ Text.nl +:+ Text.nl +:+ "User inquiry: " +:+ "Bye").
Proof.
  split; [vm_compute; reflexivity|].
  apply (render_context_forges_inquiry sample_environ sample_service
           "Opening hours" "Hi" "Bye");
    [vm_compute; reflexivity | discriminate].
Defined.

End PromptReading.

(** ** The client and the service together *)

Lemma request_payload_context (msg : string) (context : option string) :
  request_payload msg context !! "background_info" =
  if falsy context then None else Some (or_empty context).
Proof.
  unfold request_payload. destruct (falsy context); simpl.
  - now rewrite lookup_singleton_ne.
  - now rewrite lookup_insert_eq.
Qed.

(** What the application reads from a request of the client. *)
Lemma received_request (msg : string) (context : option string) :
  received_body (request_payload msg context) =
  {| body_message := Some msg;
     body_background_info :=
       if falsy context then None else Some (Some (or_empty context)) |}.
Proof.
  unfold received_body.
  rewrite request_payload_message, request_payload_context.
  now destruct (falsy context).
Qed.




(** One call of [send_message] against the application. *)
Lemma send_message_to_service (stack : http_stack)
    (environ : gmap string string) (application : FastAPI) (p : provider)
    (log0 : list string) (elsewhere : transport) (self : ChatClient)
    (msg : string) (context : option string) (st : console) :
  create_app environ = Ok application ->
  let endpoint := base_url self +:+ "/conversation" in
  let prompt :=
    "You are a helpful AI assistant. "
    +:+ (if Text.truthy (or_empty context)
         then "Context: " +:+ or_empty context else "")
    +:+ Text.nl +:+ Text.nl +:+ "User inquiry: " +:+ msg in
  fst (send_message self
         (service stack application p (base_url self) log0 elsewhere)
         msg context st) =
  if String.eqb msg "" then
    Ok (JStr ("Error: 422 Client Error: " +:+ reason_phrase stack 422
              +:+ " for url: " +:+ endpoint))
  else
    match p (llm (chat_service application))
            (served application p endpoint (requests st) log0) prompt with
    | Completed r => Ok (JStr r)
    | Failed _ =>
        Ok (JStr ("Error: 500 Server Error: " +:+ reason_phrase stack 500
                  +:+ " for url: " +:+ endpoint))
    end.
Proof.
  intros Happ. cbv zeta. apply create_app_service in Happ.
  rewrite send_message_run. cbv zeta. unfold service. simpl.
  rewrite String.eqb_refl, post_conversation_cases, received_request.
  destruct msg as [|a msg]; [reflexivity|].
  unfold validate. simpl.
  replace (or_empty
             match (if falsy context then None else Some (Some (or_empty context)))
             with Some v => v | None => None end)
    with (or_empty context) by (destruct context as [[|x c]|]; reflexivity).
  rewrite (render_init _ _ _ _ Happ).
  destruct (p _ _ _); reflexivity.
Qed.

(** X7. Against the application itself [send_message] never raises: for
    an empty message it returns the text of the 422 error, for any other
    message the provider's completion when there is one, and otherwise
    the text of the 500 error, which is built from the status line and
    the URL and holds none of the provider's message. *)
Theorem send_message_against_service (stack : http_stack)
    (environ : gmap string string) (application : FastAPI) (p : provider)
    (log0 : list string) (elsewhere : transport) (self : ChatClient)
    (msg : string) (context : option string) (st : console) :
  create_app environ = Ok application ->
  let outcome :=
    fst (send_message self
           (service stack application p (base_url self) log0 elsewhere)
           msg context st) in
  let endpoint := base_url self +:+ "/conversation" in
  (msg = "" ->
   outcome = Ok (JStr ("Error: 422 Client Error: " +:+ reason_phrase stack 422
                       +:+ " for url: " +:+ endpoint))) /\
  (msg <> "" ->
   exists prompt,
     render (chat_service application) (or_empty context) msg = Ok prompt /\
     outcome =
     match p (llm (chat_service application))
             (served application p endpoint (requests st) log0) prompt with
     | Completed r => Ok (JStr r)
     | Failed _ =>
         Ok (JStr ("Error: 500 Server Error: " +:+ reason_phrase stack 500
                   +:+ " for url: " +:+ endpoint))
     end) /\
  (exists shown, outcome = Ok (JStr shown)).
Proof.
  intros Happ. cbv zeta.
  rewrite (send_message_to_service stack environ application p log0 elsewhere
             self msg context st Happ). cbv zeta.
  repeat apply conj.
  - now intros ->.
  - intros Hne. apply String.eqb_neq in Hne. rewrite Hne.
    eexists. split; [exact (render_init _ _ _ _ (create_app_service _ _ Happ))|].
    reflexivity.
  - destruct (String.eqb msg ""); [eauto|].
    destruct (p _ _ _); eauto.
Qed.

Lemma send_message_against_service_witness :
  create_app sample_environ = Ok sample_app /\
  fst (send_message sample_client
         (service sample_stack sample_app (stub "Hi there")
            (base_url sample_client) [] unreachable)
         "" None fresh_console) =
  Ok (JStr ("Error: 422 Client Error: Unprocessable Entity for url: "
            +:+ "http://127.0.0.1:8000/conversation")) /\
  exists shown,
    fst (send_message sample_client
           (service sample_stack sample_app (broken "quota exceeded")
              (base_url sample_client) [] unreachable)
           "Hello" None fresh_console) = Ok (JStr shown).
Proof.
  split; [vm_compute; reflexivity|]. split.
  - apply (send_message_against_service sample_stack sample_environ sample_app
             (stub "Hi there") [] unreachable sample_client "" None fresh_console);
      vm_compute; reflexivity.
  - apply (send_message_against_service sample_stack sample_environ sample_app
             (broken "quota exceeded") [] unreachable sample_client
             "Hello" None fresh_console).
    vm_compute; reflexivity.
Defined.

(** ** Further properties of the interactive loop *)

Lemma interactive_step_interrupt (self : ChatClient) (net : transport)
    (context : string) (st : console) :
  interactive_step self net Interrupt context st =
  (Ok Break,
   {| requests := requests st;
      stdout := (stdout st ++ [PromptYou]) ++ [GoodbyeInterrupted] |}).
Proof. reflexivity. Qed.

Lemma interactive_step_end_of_file (self : ChatClient) (net : transport)
    (context : string) (st : console) :
  interactive_step self net EndOfFile context st =
  (Raise EOFError,
   {| requests := requests st; stdout := stdout st ++ [PromptYou] |}).
Proof. reflexivity. Qed.

Lemma chat_loop_cons (self : ChatClient) (net : transport)
    (ev : input_event) (rest : list input_event) (context : string)
    (st : console) :
  chat_loop self net (ev :: rest) context st =
  match interactive_step self net ev context st with
  | (Ok Break, st') => (Ok Finished, st')
  | (Ok (Continue context'), st') => chat_loop self net rest context' st'
  | (Raise e, st') => (Raise e, st')
  end.
Proof.
  simpl. unfold bind.
  destruct (interactive_step self net ev context st) as [[[|context']|e] st'];
    reflexivity.
Qed.

Lemma interactive_chat_loop (self : ChatClient) (net : transport)
    (events : list input_event) (st : console) :
  interactive_chat self net events st =
  chat_loop self net events ""
    {| requests := requests st; stdout := (stdout st ++ [Banner]) ++ [Help] |}.
Proof. reflexivity. Qed.

(** A run over two batches of input is the run over the first, carried
    on over the second when the first leaves the loop waiting. *)
Lemma chat_loop_app (self : ChatClient) (net : transport)
    (first second : list input_event) :
  forall (context : string) (st : console),
    chat_loop self net (first ++ second) context st =
    match chat_loop self net first context st with
    | (Ok (AwaitingInput context'), st') => chat_loop self net second context' st'
    | other => other
    end.
Proof.
  induction first as [|ev rest IH]; intros context st; [reflexivity|].
  rewrite <- app_comm_cons, !chat_loop_cons.
  destruct (interactive_step self net ev context st) as [[[|context']|e] st'];
    [reflexivity | apply IH | reflexivity].
Qed.

(** The requests of a run are read off the input events: they begin
    the script, and are the whole script unless the run raises. *)
Lemma chat_loop_script (self : ChatClient) (net : transport)
    (events : list input_event) :
  forall (context : string) (st : console),
  exists sent,
    requests (snd (chat_loop self net events context st)) = requests st ++ sent /\
    sent `prefix_of` script self events context /\
    (forall e, fst (chat_loop self net events context st) = Ok e ->
               sent = script self events context).
Proof.
  induction events as [|ev rest IH]; intros context st.
  - exists []. simpl. now rewrite app_nil_r.
  - rewrite chat_loop_cons. destruct ev as [raw| |].
    + rewrite interactive_step_line. cbv zeta. simpl script.
      case_bool_decide.
      { exists []. simpl. now rewrite app_nil_r. }
      destruct (String.eqb _ "clear").
      { destruct (IH "" {| requests := requests st;
                           stdout := (stdout st ++ [PromptYou]) ++ [ContextCleared] |})
          as [sent Hsent]. now exists sent. }
      destruct (negb (Text.truthy (Text.strip raw))).
      { destruct (IH context {| requests := requests st;
                               stdout := stdout st ++ [PromptYou] |})
          as [sent Hsent]. now exists sent. }
      pose proof (send_message_console self net (Text.strip raw) (Some context)
                    {| requests := requests st;
                       stdout := (stdout st ++ [PromptYou]) ++ [AIPrefix] |}) as Hc.
      destruct (send_message _ _ _ _ _) as [[v|e] st2]; simpl in Hc; subst st2.
      * simpl.
        match goal with
        | |- context [chat_loop self net rest context ?s] =>
            destruct (IH context s) as [sent [Hreq [Hpre Hall]]]
        end.
        simpl in Hreq.
        exists ({| url := base_url self +:+ "/conversation";
                   json_payload :=
                     request_payload (Text.strip raw) (Some context) |} :: sent).
        split; [rewrite Hreq, <- List.app_assoc; reflexivity|].
        split; [now apply prefix_cons|].
        intros e He. now rewrite (Hall e He).
      * simpl. eexists. split; [reflexivity|].
        split; [apply prefix_cons, prefix_nil | discriminate].
    + rewrite interactive_step_interrupt. exists []. simpl. now rewrite app_nil_r.
    + rewrite interactive_step_end_of_file. exists []. simpl.
      split; [now rewrite app_nil_r|].
      split; [apply prefix_nil | discriminate].
Qed.

(** X8. What a run of the interactive loop sends is decided by what is
    typed, not by what the server answers: the requests sent begin the
    script read off the input events, in order, and are the whole
    script whenever the run does not raise. *)
Theorem requests_follow_the_script (self : ChatClient) (net : transport)
    (events : list input_event) (st : console) :
  exists sent,
    requests (snd (interactive_chat self net events st)) = requests st ++ sent /\
    sent `prefix_of` script self events "" /\
    (forall e, fst (interactive_chat self net events st) = Ok e ->
               sent = script self events "").
Proof.
  rewrite interactive_chat_loop.
  destruct (chat_loop_script self net events ""
              {| requests := requests st;
                 stdout := (stdout st ++ [Banner]) ++ [Help] |})
    as [sent Hsent].
  now exists sent.
Qed.

Lemma requests_follow_the_script_witness :
  fst (interactive_chat sample_client unreachable
         [Line " Hello "; Line "clear"; Line "quit"; Line "unread"]
         fresh_console) = Ok Finished /\
  requests (snd (interactive_chat sample_client unreachable
                   [Line " Hello "; Line "clear"; Line "quit"; Line "unread"]
                   fresh_console)) =
  script sample_client
    [Line " Hello "; Line "clear"; Line "quit"; Line "unread"] "".
Proof.
  split; [vm_compute; reflexivity|].
  destruct (requests_follow_the_script sample_client unreachable
              [Line " Hello "; Line "clear"; Line "quit"; Line "unread"]
              fresh_console) as [sent [Hreq [_ Hall]]].
  rewrite Hreq. simpl. apply (Hall Finished). vm_compute; reflexivity.
Defined.

(** X9. The loop reads no input once it has ended: when a run over some
    input events ends (by a quit word, an interrupt or an exception),
    events that follow change nothing.  When it is left waiting at the
    prompt, an interrupt ends it cleanly and the end of the input raises
    [EOFError] out of the loop, in both cases with no further request. *)
Theorem loop_ending (self : ChatClient) (net : transport)
    (events more : list input_event) (st : console) :
  ((forall c, fst (interactive_chat self net events st) <> Ok (AwaitingInput c)) ->
   interactive_chat self net (events ++ more) st
   = interactive_chat self net events st) /\
  (forall c,
      fst (interactive_chat self net events st) = Ok (AwaitingInput c) ->
      (fst (interactive_chat self net (events ++ Interrupt :: more) st) = Ok Finished /\
       requests (snd (interactive_chat self net (events ++ Interrupt :: more) st))
       = requests (snd (interactive_chat self net events st))) /\
      (fst (interactive_chat self net (events ++ EndOfFile :: more) st)
       = Raise EOFError /\
       requests (snd (interactive_chat self net (events ++ EndOfFile :: more) st))
       = requests (snd (interactive_chat self net events st)))).
Proof.
  rewrite !interactive_chat_loop, !chat_loop_app.
  destruct (chat_loop self net events "" _) as [[[|c']|e] st'];
    cbv beta iota; split.
  - reflexivity.
  - discriminate.
  - intros H. now destruct (H c').
  - intros c _. rewrite !chat_loop_cons.
    rewrite interactive_step_interrupt, interactive_step_end_of_file.
    now repeat split.
  - reflexivity.
  - discriminate.
Qed.

Lemma loop_ending_witness :
  interactive_chat sample_client unreachable
    ([Line "quit"] ++ [Line "Hello"]) fresh_console
  = interactive_chat sample_client unreachable [Line "quit"] fresh_console /\
  fst (interactive_chat sample_client unreachable
         ([Line "Hello"] ++ EndOfFile :: []) fresh_console) = Raise EOFError.
Proof.
  split.
  - apply (loop_ending sample_client unreachable [Line "quit"] [Line "Hello"]
             fresh_console).
    intros c. vm_compute. discriminate.
  - destruct (loop_ending sample_client unreachable [Line "Hello"] []
                fresh_console) as [_ Hwaiting].
    apply (Hwaiting ""). vm_compute; reflexivity.
Defined.

(** One turn keeps the held context or empties it. *)
Lemma interactive_step_context (self : ChatClient) (net : transport)
    (ev : input_event) (context c : string) (st : console) :
  fst (interactive_step self net ev context st) = Ok (Continue c) ->
  c = context \/ c = "".
Proof.
  destruct ev as [raw| |]; [|discriminate..].
  rewrite interactive_step_line. cbv zeta.
  case_bool_decide; [discriminate|].
  destruct (String.eqb _ "clear"); [intros [= <-]; now right|].
  destruct (negb _); [intros [= <-]; now left|].
  destruct (send_message _ _ _ _ _) as [[v|e] st']; [|discriminate].
  intros [= <-]. now left.
Qed.

(** From an empty context the loop never holds another one. *)
Lemma chat_loop_keeps_empty (self : ChatClient) (net : transport)
    (events : list input_event) :
  forall (st : console) (c : string),
    fst (chat_loop self net events "" st) = Ok (AwaitingInput c) -> c = "".
Proof.
  induction events as [|ev rest IH]; intros st c.
  - now intros [= <-].
  - rewrite chat_loop_cons.
    pose proof (interactive_step_context self net ev "") as Hstep.
    destruct (interactive_step self net ev "" st) as [[[|c']|e] st'] eqn:Hs;
      [discriminate | | discriminate].
    destruct (Hstep c' st) as [-> | ->]; [now rewrite Hs | apply IH..].
Qed.

(** With an empty context the script holds bare messages only. *)
Lemma script_bare (self : ChatClient) (events : list input_event) :
  Forall (fun rq =>
            url rq = base_url self +:+ "/conversation" /\
            exists typed,
              json_payload rq = {[ "message" := Text.strip typed ]} /\
              Text.strip typed <> "")
         (script self events "").
Proof.
  induction events as [|[raw| |] rest IH]; simpl; try constructor.
  case_bool_decide; [constructor|].
  destruct (String.eqb _ "clear"); [exact IH|].
  destruct (Text.strip raw) as [|a t] eqn:Hs; simpl; [exact IH|].
  constructor; [|exact IH]. simpl. split; [reflexivity|].
  exists raw. rewrite Hs. split; [reflexivity | discriminate].
Qed.

(** X10. In interactive mode the held context is never anything but
    the empty text: the loop is always left waiting with the context
    [""], and every request it sends holds the [message] alone, with no
    [background_info]. *)
Theorem interactive_context_stays_empty (self : ChatClient) (net : transport)
    (events : list input_event) (st : console) :
  (forall c,
      fst (interactive_chat self net events st) = Ok (AwaitingInput c) -> c = "") /\
  exists sent,
    requests (snd (interactive_chat self net events st)) = requests st ++ sent /\
    Forall (fun rq =>
              json_payload rq !! "background_info" = None /\
              exists typed, json_payload rq = {[ "message" := Text.strip typed ]})
           sent.
Proof.
  rewrite interactive_chat_loop. split; [apply chat_loop_keeps_empty|].
  destruct (chat_loop_script self net events ""
              {| requests := requests st;
                 stdout := (stdout st ++ [Banner]) ++ [Help] |})
    as [sent [Hreq [[k Hk] _]]].
  exists sent. split; [exact Hreq|].
  pose proof (script_bare self events) as Hbare.
  rewrite Hk in Hbare. apply Forall_app in Hbare as [Hbare _].
  eapply Forall_impl; [exact Hbare|].
  intros rq [_ [typed [Hp _]]]. split; [|now exists typed].
  rewrite Hp. now rewrite lookup_singleton_ne.
Qed.

Lemma interactive_context_stays_empty_witness :
  fst (interactive_chat sample_client unreachable [Line "Hello"; Line "clear"]
         fresh_console) = Ok (AwaitingInput "").
Proof.
  destruct (interactive_context_stays_empty sample_client unreachable
              [Line "Hello"; Line "clear"] fresh_console) as [Hctx _].
  destruct (fst (interactive_chat sample_client unreachable
                   [Line "Hello"; Line "clear"] fresh_console))
    as [[|c]|e] eqn:Hrun; [vm_compute in Hrun; discriminate | | vm_compute in Hrun; discriminate].
  now rewrite (Hctx c eq_refl).
Defined.

(** ** The lines a run sends *)

(** With an empty context the script is made of the bare requests of
    the stripped lines to send. *)
Lemma script_typed_lines (self : ChatClient) (events : list input_event) :
  script self events "" = map (bare_request self) (typed_lines events).
Proof.
  induction events as [|[raw| |] rest IH]; simpl; try reflexivity.
  case_bool_decide; [reflexivity|].
  destruct (String.eqb _ "clear"); [exact IH|].
  destruct (negb _); [exact IH|].
  simpl. now rewrite IH.
Qed.

(** Each line to send is the stripped form of a line that was typed,
    and is not empty. *)
Lemma typed_lines_typed (events : list input_event) :
  Forall (fun m => m <> "" /\ exists typed, Line typed ∈ events /\ m = Text.strip typed)
         (typed_lines events).
Proof.
  induction events as [|[raw| |] rest IH]; simpl; try constructor.
  assert (Hrest : Forall (fun m => m <> "" /\
                            exists typed,
                              Line typed ∈ Line raw :: rest /\ m = Text.strip typed)
                         (typed_lines rest)).
  { eapply Forall_impl; [exact IH|].
    intros m [Hne [typed [Hin Hm]]]. split; [exact Hne|].
    exists typed. split; [apply elem_of_cons; now right | exact Hm]. }
  case_bool_decide; [constructor|].
  destruct (String.eqb _ "clear"); [exact Hrest|].
  destruct (Text.strip raw) as [|a t] eqn:Hs; simpl; [exact Hrest|].
  constructor; [|exact Hrest]. split; [discriminate|].
  exists raw. split; [apply elem_of_cons; now left | now rewrite Hs].
Qed.

(** An initial part of the images of a list is the images of an initial
    part. *)
Lemma prefix_of_map {A B : Type} (f : A -> B) (sent : list B) (l : list A) :
  sent `prefix_of` map f l ->
  exists l', sent = map f l' /\ l' `prefix_of` l.
Proof.
  intros [k Hk]. apply map_eq_app in Hk as [l1 [l2 [-> [<- _]]]].
  exists l1. split; [reflexivity | now exists l2].
Qed.

(** The requests of a run from an empty context are the bare requests
    of an initial part of the lines to send, and of all of them unless
    the run raises. *)
Lemma chat_loop_typed_lines (self : ChatClient) (net : transport)
    (events : list input_event) (st : console) :
  exists sent,
    requests (snd (chat_loop self net events "" st))
    = requests st ++ map (bare_request self) sent /\
    sent `prefix_of` typed_lines events /\
    (forall e, fst (chat_loop self net events "" st) = Ok e ->
               sent = typed_lines events).
Proof.
  destruct (chat_loop_script self net events "" st) as [rqs [Hreq [Hpre Hall]]].
  rewrite script_typed_lines in Hpre, Hall.
  destruct (prefix_of_map _ _ _ Hpre) as [sent [-> Hsent]].
  exists sent. split; [exact Hreq|]. split; [exact Hsent|].
  intros e He. specialize (Hall e He).
  destruct Hsent as [k Hk]. rewrite Hk in Hall |- *. rewrite map_app in Hall.
  rewrite <- (app_nil_r (map (bare_request self) sent)) in Hall at 1.
  apply app_inv_head in Hall. symmetry in Hall. apply map_eq_nil in Hall.
  subst k. now rewrite app_nil_r.
Qed.

(** ** An interactive session against the service *)

Section Session.

Variable stack : http_stack.
Variable environ : gmap string string.
Variable application : FastAPI.
Variable p : provider.
Variable log0 : list string.
Variable elsewhere : transport.
Variable self : ChatClient.
Hypothesis built : create_app environ = Ok application.

Local Abbreviation net :=
  (service stack application p (base_url self) log0 elsewhere).

Lemma send_message_service_returns (msg : string) (context : option string)
    (st : console) :
  exists shown, fst (send_message self net msg context st) = Ok (JStr shown).
Proof.
  rewrite (send_message_to_service stack environ application p log0 elsewhere
             self msg context st built). cbv zeta.
  destruct (String.eqb msg ""); [eauto|].
  destruct (p _ _ _); eauto.
Qed.

(** Against the service a turn of the loop raises at the end of the
    input only. *)
Lemma interactive_step_service_raises (ev : input_event) (context : string)
    (st : console) (e : exn) :
  fst (interactive_step self net ev context st) = Raise e -> e = EOFError.
Proof.
  destruct ev as [raw| |]; [|discriminate | now intros [= <-]].
  rewrite interactive_step_line. cbv zeta.
  case_bool_decide; [discriminate|].
  destruct (String.eqb _ "clear"); [discriminate|].
  destruct (negb _); [discriminate|].
  match goal with
  | |- context [send_message self net ?m ?c ?s] =>
      destruct (send_message_service_returns m c s) as [shown Hshown];
      destruct (send_message self net m c s) as [[v|e0] st']
  end; simpl in Hshown; discriminate.
Qed.

Lemma chat_loop_service_raises (events : list input_event) :
  forall (context : string) (st : console) (e : exn),
    fst (chat_loop self net events context st) = Raise e -> e = EOFError.
Proof.
  induction events as [|ev rest IH]; intros context st e; [discriminate|].
  rewrite chat_loop_cons.
  pose proof (interactive_step_service_raises ev context st) as Hstep.
  destruct (interactive_step self net ev context st) as [[[|c']|e0] st'];
    [discriminate | apply IH |].
  simpl. intros [= <-]. now apply Hstep.
Qed.

(** The prompt of a bare message. *)
Lemma prompts_of_bare (m : string) :
  m <> "" ->
  prompts_of application (received_body {[ "message" := m ]}) =
  ["You are a helpful AI assistant. "
   +:+ Text.nl +:+ Text.nl +:+ "User inquiry: " +:+ m].
Proof.
  intros Hne. unfold prompts_of.
  change ({[ "message" := m ]} : gmap string string)
    with (request_payload m None).
  rewrite (validate_accepts _ m) by (now rewrite received_request || exact Hne).
  rewrite received_request. simpl.
  now rewrite (render_init _ _ _ _ (create_app_service _ _ built)).
Qed.

(** The provider log after the bare requests of non-empty messages. *)
Lemma served_bare (sent : list string) :
  Forall (fun m => m <> "") sent ->
  forall log,
    served application p (base_url self +:+ "/conversation")
      (map (bare_request self) sent) log = log ++ map bare_prompt sent.
Proof.
  induction 1 as [|m sent Hne _ IH]; intros log; simpl.
  - now rewrite app_nil_r.
  - rewrite String.eqb_refl, post_conversation_log, IH.
    change (json_payload (bare_request self m))
      with ({[ "message" := m ]} : gmap string string).
    rewrite (prompts_of_bare _ Hne), <- List.app_assoc. reflexivity.
Qed.

(** X11. An interactive session against the application itself: the
    loop can only be broken by the end of the input ([EOFError]), never
    by an answer of the service; and the provider receives one prompt
    per request, in the order typed: for an initial part of the lines
    to send (all of them when the run does not raise), the preamble, a
    blank line and ["User inquiry: "] with the stripped line, never
    with a context. *)
Theorem interactive_session (events : list input_event) :
  let run := interactive_chat self net events fresh_console in
  (forall e, fst run = Raise e -> e = EOFError) /\
  exists sent,
    sent `prefix_of` typed_lines events /\
    (forall e, fst run = Ok e -> sent = typed_lines events) /\
    requests (snd run) = map (bare_request self) sent /\
    served application p (base_url self +:+ "/conversation")
      (requests (snd run)) log0 = log0 ++ map bare_prompt sent.
Proof.
  cbv zeta. split.
  - rewrite interactive_chat_loop. apply chat_loop_service_raises.
  - rewrite interactive_chat_loop.
    destruct (chat_loop_typed_lines self net events
                {| requests := requests fresh_console;
                   stdout := (stdout fresh_console ++ [Banner]) ++ [Help] |})
      as [sent [Hreq [Hpre Hall]]].
    exists sent. split; [exact Hpre|]. split; [exact Hall|].
    rewrite Hreq. simpl. split; [reflexivity|].
    apply served_bare.
    pose proof (typed_lines_typed events) as Htyped.
    destruct Hpre as [k Hk]. rewrite Hk in Htyped.
    apply Forall_app in Htyped as [Htyped _].
    eapply Forall_impl; [exact Htyped|]. now intros m [Hne _].
Qed.

End Session.

Lemma interactive_session_witness :
  create_app sample_environ = Ok sample_app /\
  served sample_app (stub "Hi there")
    (base_url sample_client +:+ "/conversation")
    (requests
       (snd (interactive_chat sample_client
               (service sample_stack sample_app (stub "Hi there")
                  (base_url sample_client) [] unreachable)
               [Line " Hello "; Line "quit"] fresh_console)))
    [] = [bare_prompt "Hello"].
Proof.
  split; [vm_compute; reflexivity|].
  destruct (interactive_session sample_stack sample_environ sample_app
              (stub "Hi there") [] unreachable sample_client)
    with (events := [Line " Hello "; Line "quit"])
    as [_ [sent [_ [Hall [_ Hlog]]]]]; [vm_compute; reflexivity|].
  rewrite Hlog, (Hall Finished); vm_compute; reflexivity.
Defined.

(** ** Further properties of the client *)



(** ** The endpoint on the body as it arrives *)

Lemma post_request_cases (application : FastAPI) (p : provider)
    (raw : option json) (log : list string) :
  post_request application p raw log =
  match validate_body raw with
  | inr errors => ({| status := 422; body := ValidationJson errors |}, log)
  | inl req =>
      match render (chat_service application)
              (or_empty (background_info req)) (message req) with
      | Ok prompt =>
          (match p (llm (chat_service application)) log prompt with
           | Completed r => {| status := 200; body := ReplyJson {| reply := r |} |}
           | Failed m =>
               {| status := 500;
                  body := DetailJson ("AI processing failed: " +:+ m) |}
           end, log ++ [prompt])
      | Raise e =>
          ({| status := 500;
              body := DetailJson ("AI processing failed: " +:+ str_exn e) |}, log)
      end
  end.
Proof.
  unfold post_request, handle_conversation, bind.
  destruct (validate_body raw) as [req|errors]; [|reflexivity].
  rewrite generate_response_cases.
  destruct (render _ _ _) as [prompt|e]; [|reflexivity].
  now destruct (p _ log prompt).
Qed.

(** On a body of the declared shape the two validations agree, and so
    do the two readings of the endpoint. *)
Lemma validate_body_typed (b : RequestBody) :
  validate_body (Some (body_json b)) = validate b.
Proof.
  destruct b as [[m|] [[c|]|]]; unfold validate_body, validate, body_json; simpl;
    try reflexivity; destruct (String.length m <? 1); reflexivity.
Qed.

Lemma post_request_typed (application : FastAPI) (p : provider)
    (b : RequestBody) (log : list string) :
  post_request application p (Some (body_json b)) log
  = post_conversation application p b log.
Proof.
  unfold post_request, post_conversation. now rewrite validate_body_typed.
Qed.

(** A JSON object with a non-empty string message and a well-typed
    context passes validation. *)
Lemma validate_body_accepts (members : list (string * json)) (msg : string) :
  member "message" members = Some (JStr msg) ->
  msg <> "" ->
  (member "background_info" members = None \/
   member "background_info" members = Some JNull \/
   exists c, member "background_info" members = Some (JStr c)) ->
  exists c,
    validate_body (Some (JObj members)) =
    inl {| message := msg; background_info := c |} /\
    or_empty c = members_context members.
Proof.
  intros Hm Hne Hc. unfold validate_body, members_context, check_message.
  rewrite Hm. destruct msg as [|a msg]; [contradiction|]. simpl.
  destruct Hc as [-> | [-> | [c ->]]]; simpl; eauto.
Qed.

(** The answer to a JSON object that passes validation. *)
Lemma post_request_valid (environ : gmap string string)
    (application : FastAPI) (p : provider)
    (members : list (string * json)) (msg : string) (log : list string) :
  create_app environ = Ok application ->
  member "message" members = Some (JStr msg) ->
  msg <> "" ->
  (member "background_info" members = None \/
   member "background_info" members = Some JNull \/
   exists c, member "background_info" members = Some (JStr c)) ->
  exists prompt,
    render (chat_service application) (members_context members) msg = Ok prompt /\
    post_request application p (Some (JObj members)) log =
    (match p (llm (chat_service application)) log prompt with
     | Completed r => {| status := 200; body := ReplyJson {| reply := r |} |}
     | Failed m =>
         {| status := 500; body := DetailJson ("AI processing failed: " +:+ m) |}
     end, log ++ [prompt]).
Proof.
  intros Happ Hm Hne Hc. apply create_app_service in Happ.
  destruct (validate_body_accepts members msg Hm Hne Hc) as [c [Hv Hctx]].
  eexists. split; [exact (render_init _ _ _ _ Happ)|].
  rewrite post_request_cases, Hv. simpl. rewrite Hctx.
  now rewrite (render_init _ _ _ _ Happ).
Qed.

(** C1, as stated, fails: a body whose message is not empty is still
    answered 422 when its [background_info] is neither null nor a
    string, as the declared type [Union[str, None]] asks. *)
Lemma ill_typed_background_info_rejected :
  create_app sample_environ = Ok sample_app /\
  fst (post_request sample_app (stub "Hi there")
         (Some (JObj [("message", JStr "Hello"); ("background_info", JNum 5)]))
         []) =
  {| status := 422; body := ValidationJson [StringType "background_info"] |}.
Proof. split; vm_compute; reflexivity. Qed.

(** C1, amended.  For every request body that is a JSON object with a
    non-empty string [message] and a [background_info] that is absent,
    null or a string, when the completion client returns the text [r]
    for the rendered prompt, POST [/conversation] answers with status
    200 and the body [{"reply": r}]: the completion is returned as it
    is. *)
Theorem conversation_ok (environ : gmap string string) (application : FastAPI)
    (p : provider) (members : list (string * json)) (msg r : string)
    (log : list string) :
  create_app environ = Ok application ->
  member "message" members = Some (JStr msg) ->
  msg <> "" ->
  (member "background_info" members = None \/
   member "background_info" members = Some JNull \/
   exists c, member "background_info" members = Some (JStr c)) ->
  (forall prompt,
      render (chat_service application) (members_context members) msg = Ok prompt ->
      p (llm (chat_service application)) log prompt = Completed r) ->
  fst (post_request application p (Some (JObj members)) log) =
  {| status := 200; body := ReplyJson {| reply := r |} |}.
Proof.
  intros Happ Hm Hne Hc Hp.
  destruct (post_request_valid environ application p members msg log
              Happ Hm Hne Hc) as [prompt [Hr ->]].
  simpl. now rewrite (Hp _ Hr).
Qed.

Lemma conversation_ok_witness :
  create_app sample_environ = Ok sample_app /\
  fst (post_request sample_app (stub "Hi there")
         (Some (JObj [("message", JStr "Hello")])) []) =
  {| status := 200; body := ReplyJson {| reply := "Hi there" |} |}.
Proof.
  split; [vm_compute; reflexivity|].
  apply (conversation_ok sample_environ sample_app (stub "Hi there")
           [("message", JStr "Hello")] "Hello").
  - vm_compute; reflexivity.
  - reflexivity.
  - discriminate.
  - left. reflexivity.
  - intros prompt _. reflexivity.
Defined.




(** ** The input of the interactive loop *)

(** C10. The loop reads every typed line through [strip] and [lower]
    before interpreting it.  For one turn: the line and its stripped
    form give the same turn; the turn ends the loop exactly when the
    stripped, lower-cased line is ["quit"], ["exit"] or ["q"] (so for
    [" QUIT "], ["Exit"], ["Q"]); a line that strips and lower-cases to
    ["clear"] (so [" Clear "]) empties the held context; a
    whitespace-only line is a no-op; and a turn sends nothing, or one
    request whose message is the stripped form of the very line, which
    has no whitespace at either end.  For the loop: on a quit word it
    ends at once and reads nothing further, wherever the word comes in
    the input; after ["clear"] it goes on with the empty context, after
    a whitespace-only line with the context it held; and the messages a
    whole run sends are, in order, an initial part of the stripped forms
    of the typed lines to send, each without whitespace at either end. *)
Theorem interactive_input_normalised (self : ChatClient) (net : transport)
    (line context : string) (st : console) (events : list input_event) :
  let step := interactive_step self net (Line line) context st in
  let word := Text.lower (Text.strip line) in
  let sending :=
    {| url := base_url self +:+ "/conversation";
       json_payload := request_payload (Text.strip line) (Some context) |} in
  step = interactive_step self net (Line (Text.strip line)) context st /\
  (fst step = Ok Break <-> word ∈ ["quit"; "exit"; "q"]) /\
  (word = "clear" ->
   fst step = Ok (Continue "") /\ requests (snd step) = requests st) /\
  (Text.blank line = true ->
   fst step = Ok (Continue context) /\ requests (snd step) = requests st) /\
  (requests (snd step) = requests st \/
   requests (snd step) = requests st ++ [sending] /\
   json_payload sending !! "message" = Some (Text.strip line) /\
   Text.edge_space (Text.strip line) = false) /\
  (word ∈ ["quit"; "exit"; "q"] ->
   chat_loop self net (Line line :: events) context st =
   (Ok Finished,
    {| requests := requests st;
       stdout := (stdout st ++ [PromptYou]) ++ [Goodbye] |}) /\
   forall before,
     (exists c, fst (interactive_chat self net before st) = Ok (AwaitingInput c)) ->
     fst (interactive_chat self net (before ++ Line line :: events) st)
     = Ok Finished /\
     requests (snd (interactive_chat self net (before ++ Line line :: events) st))
     = requests (snd (interactive_chat self net before st))) /\
  (word = "clear" ->
   chat_loop self net (Line line :: events) context st =
   chat_loop self net events ""
     {| requests := requests st;
        stdout := (stdout st ++ [PromptYou]) ++ [ContextCleared] |}) /\
  (Text.blank line = true ->
   chat_loop self net (Line line :: events) context st =
   chat_loop self net events context
     {| requests := requests st; stdout := stdout st ++ [PromptYou] |}) /\
  (exists sent,
      requests (snd (interactive_chat self net events st))
      = requests st ++ map (bare_request self) sent /\
      sent `prefix_of` typed_lines events /\
      Forall (fun m =>
                Text.edge_space m = false /\
                exists typed, Line typed ∈ events /\ m = Text.strip typed)
             sent).
Proof.
  cbv zeta. repeat apply conj.
  - rewrite !interactive_step_line. cbv zeta. now rewrite strip_idempotent.
  - intros Hbreak.
    destruct (decide (Text.lower (Text.strip line) ∈ ["quit"; "exit"; "q"]))
      as [Hq|Hq]; [exact Hq | exfalso].
    revert Hbreak. rewrite interactive_step_line. cbv zeta.
    rewrite bool_decide_eq_false_2 by exact Hq.
    destruct (String.eqb _ "clear"); [discriminate|].
    destruct (negb _); [discriminate|].
    destruct (send_message _ _ _ _ _) as [[v|e] st']; discriminate.
  - intros Hq. now rewrite interactive_step_quit.
  - intros Hc. now rewrite interactive_step_clear.
  - intros Hb. apply strip_blank in Hb. now rewrite interactive_step_skip.
  - destruct (interactive_step_requests self net (Line line) context st)
      as [Hsame | [line' [[= <-] [_ Hsent]]]]; [now left | right].
    split; [exact Hsent|]. split; [apply request_payload_message|].
    apply strip_edges.
  - intros Hq. split.
    + now rewrite chat_loop_cons, interactive_step_quit.
    + intros before [c Hc]. revert Hc.
      rewrite !interactive_chat_loop, chat_loop_app.
      destruct (chat_loop self net before "" _) as [[[|c']|e] st'];
        [discriminate | | discriminate].
      intros _. now rewrite chat_loop_cons, interactive_step_quit.
  - intros Hc. now rewrite chat_loop_cons, interactive_step_clear.
  - intros Hb. apply strip_blank in Hb.
    now rewrite chat_loop_cons, interactive_step_skip.
  - rewrite interactive_chat_loop.
    destruct (chat_loop_typed_lines self net events
                {| requests := requests st;
                   stdout := (stdout st ++ [Banner]) ++ [Help] |})
      as [sent [Hreq [Hpre _]]].
    exists sent. split; [exact Hreq|]. split; [exact Hpre|].
    pose proof (typed_lines_typed events) as Htyped.
    destruct Hpre as [k Hk]. rewrite Hk in Htyped.
    apply Forall_app in Htyped as [Htyped _].
    eapply Forall_impl; [exact Htyped|].
    intros m [_ [typed [Hin ->]]]. split; [apply strip_edges | eauto].
Qed.

Lemma interactive_input_normalised_witness :
  fst (interactive_step sample_client unreachable (Line " QUIT ") "" fresh_console)
  = Ok Break /\
  fst (interactive_step sample_client unreachable (Line "Exit") "" fresh_console)
  = Ok Break /\
  fst (interactive_step sample_client unreachable (Line "Q") "" fresh_console)
  = Ok Break /\
  fst (interactive_step sample_client unreachable (Line " Clear ") "held"
         fresh_console) = Ok (Continue "") /\
  fst (interactive_step sample_client unreachable (Line "   ") "held"
         fresh_console) = Ok (Continue "held") /\
  fst (interactive_chat sample_client unreachable
         ([Line " Hello "] ++ Line " QUIT " :: [Line "unread"]) fresh_console)
  = Ok Finished.
Proof.
  repeat apply conj.
  - apply (interactive_input_normalised sample_client unreachable " QUIT " ""
             fresh_console []).
    apply (proj1 (bool_decide_eq_true _)). vm_compute; reflexivity.
  - apply (interactive_input_normalised sample_client unreachable "Exit" ""
             fresh_console []).
    apply (proj1 (bool_decide_eq_true _)). vm_compute; reflexivity.
  - apply (interactive_input_normalised sample_client unreachable "Q" ""
             fresh_console []).
    apply (proj1 (bool_decide_eq_true _)). vm_compute; reflexivity.
  - apply (interactive_input_normalised sample_client unreachable " Clear " "held"
             fresh_console []).
    vm_compute; reflexivity.
  - apply (interactive_input_normalised sample_client unreachable "   " "held"
             fresh_console []).
    vm_compute; reflexivity.
  - destruct (interactive_input_normalised sample_client unreachable " QUIT " ""
                fresh_console [Line "unread"])
      as [_ [_ [_ [_ [_ [Hquit _]]]]]].
    destruct Hquit as [_ Hany];
      [apply (proj1 (bool_decide_eq_true _)); vm_compute; reflexivity|].
    apply (Hany [Line " Hello "]). exists "". vm_compute; reflexivity.
Defined.
